(** * DiskANN Python bindings: the recall evaluator and the index wrapper

    A shallow embedding of [python/src/diskann_bindings.cpp].

    - [Mem]: the state-and-error monad of code that walks raw buffers.
    - [CalculateRecall] and [CalculateRecallNumpy]: the two recall lambdas,
      each translated on its own, over the three argument buffers.
    - [Omp] and [BatchSearch]: the thread-count plumbing of the two batch
      search methods.
    - [LoadIndex]: the [load_index] method, as a transition over the wrapped
      [PQFlashIndex] together with the trace of calls it makes.
    - [PQFlashIndexSpec] and [RecallSpec]: the wrapped index and the recall
      formula as the specification words them.
    - [OmpBindings], [Search], [SearchNumpy] and [Truthset]: the
      module-level OpenMP lambdas, the data flow of the four search methods
      into their outputs, and the [load_truthset] lambda. *)

From Stdlib Require Import ZArith QArith Lia String.
From Stdlib Require Import Floats.SpecFloat.
From stdpp Require Import base decidable option list sets gmap.

Local Open Scope Z_scope.

(** ** Machine integers

    [unsigned] is 32 bits and [size_t] is 64 bits on the Linux target the
    bindings are built for; arithmetic on them wraps. *)

Definition u32 (z : Z) : Z := z mod 2 ^ 32.
Definition u64 (z : Z) : Z := z mod 2 ^ 64.

Definition is_u32 (z : Z) : Prop := 0 <= z < 2 ^ 32.

(** ** Doubles

    The value handed back to Python is a C [double].  Rounding is not
    modelled: a finite double is idealised as the exact rational it stands
    for.  The IEEE special values are kept, because the source divides by its
    arguments without guarding against zero.  Every operand below is the
    conversion of an unsigned quantity, so negative values and signed zeros
    do not arise. *)

Inductive double : Type :=
| DFin (q : Q)
| DInf
| DNaN.

Definition Qzero (q : Q) : bool := Qeq_bool q 0.

Definition ddiv (x y : double) : double :=
  match x, y with
  | DFin a, DFin b =>
      if Qzero b then (if Qzero a then DNaN else DInf) else DFin (a / b)
  | DFin _, DInf => DFin 0
  | DInf, DFin _ => DInf
  | _, _ => DNaN
  end.

Definition dmul (x y : double) : double :=
  match x, y with
  | DFin a, DFin b => DFin (a * b)
  | DFin a, DInf | DInf, DFin a => if Qzero a then DNaN else DInf
  | DInf, DInf => DInf
  | _, _ => DNaN
  end.

Definition double_of_Z (z : Z) : double := DFin (inject_Z z).

(** ** Memory effects

    Both recall lambdas walk raw pointers into their argument buffers.  A
    computation takes the memory [S] behind those pointers and returns a
    value together with the memory it leaves, or fails. *)

Module Mem.

(** Result of running a piece of code: a value, an access outside a buffer
    (undefined behaviour in the source), or an exhausted loop budget (an
    artefact of the embedding, shown unreachable below). *)
Inductive outcome (A : Type) : Type :=
| Ok (a : A)
| OutOfBounds
| OutOfFuel.
Arguments Ok {A} a.
Arguments OutOfBounds {A}.
Arguments OutOfFuel {A}.

Definition M (S A : Type) : Type := S -> outcome (A * S).

Definition ret {S A} (a : A) : M S A := fun h => Ok (a, h).

Definition bind {S A B} (k : A -> M S B) (m : M S A) : M S B :=
  fun h =>
    match m h with
    | Ok (a, h') => k a h'
    | OutOfBounds => OutOfBounds
    | OutOfFuel => OutOfFuel
    end.

Definition out_of_fuel {S A} : M S A := fun _ => OutOfFuel.

#[export] Instance M_ret {S} : MRet (M S) := @ret S.
#[export] Instance M_bind {S} : MBind (M S) := @bind S.

(** Value part of an outcome, the memory forgotten. *)
Definition value {S A} (o : outcome (A * S)) : outcome A :=
  match o with
  | Ok (a, _) => Ok a
  | OutOfBounds => OutOfBounds
  | OutOfFuel => OutOfFuel
  end.

(** [p[i]] for a buffer [l] behind pointer [p]. *)
Definition index {A} (l : list A) (i : Z) : option A :=
  if i <? 0 then None else l !! Z.to_nat i.

(** A read through a pointer; [buf] selects the buffer, [None] standing
    for the null pointer. *)
Definition load {S A} (buf : S -> option (list A)) (i : Z) : M S A :=
  fun h =>
    match buf h with
    | Some l =>
        match index l i with
        | Some v => Ok (v, h)
        | None => OutOfBounds
        end
    | None => OutOfBounds
    end.

(** [s.insert(p + first, p + first + n)]: the iterator-range insert of
    [std::set], reading [n] consecutive elements through [rd]. *)
Fixpoint insert_range {S} (rd : Z -> M S Z) (first : Z) (n : nat)
    (s : gset Z) : M S (gset Z) :=
  match n with
  | O => mret s
  | S n' => v ← rd first; insert_range rd (first + 1) n' ({[ v ]} ∪ s)
  end.

(** A computation that leaves the memory as it found it. *)
Definition reads_only {S A} (m : M S A) : Prop :=
  forall h a h', m h = Ok (a, h') -> h' = h.

(** A computation that never exhausts a loop budget. *)
Definition within_budget {S A} (m : M S A) : Prop :=
  forall h, m h <> OutOfFuel.

End Mem.

Import Mem.

(** ** [calculate_recall] (lines 126-166) *)

Module CalculateRecall.

(** The buffers behind [gti_ptr], [gtd_ptr] and [r_ptr], the [data()] of
    the three [std::vector] arguments.  [ground_truth_dists = None] is a
    vector without storage, the case in which [data()] is the null
    pointer. *)
Record heap : Type := Heap {
  ground_truth_ids : list Z;
  ground_truth_dists : option (list spec_float);
  results : list Z
}.

Definition read_gti : Z -> M heap Z :=
  load (fun h => Some (ground_truth_ids h)).
Definition read_gtd : Z -> M heap spec_float := load ground_truth_dists.
Definition read_res : Z -> M heap Z := load (fun h => Some (results h)).

(** [gtd_ptr != nullptr] *)
Definition gtd_not_null : M heap bool :=
  fun h => Ok (bool_decide (ground_truth_dists h <> None), h).

(** The [while] loop of lines 145-147.  [base] is the offset of
    [gt_dist_vec] in the distance buffer and [pivot] is [recall_at - 1]. *)
Fixpoint tie_loop (fuel : nat) (ground_truth_dims base pivot tie_breaker : Z)
  : M heap Z :=
  match fuel with
  | O => out_of_fuel
  | S fuel' =>
      if tie_breaker <? ground_truth_dims then
        a ← read_gtd (base + tie_breaker);
        b ← read_gtd (base + pivot);
        if SFeqb a b
        then tie_loop fuel' ground_truth_dims base pivot (u64 (tie_breaker + 1))
        else mret tie_breaker
      else mret tie_breaker
  end.

(** Lines 141-148: [tie_breaker], the number of ground-truth entries of
    query [i] that go into [gt]. *)
Definition tie_break (ground_truth_dims recall_at i : Z) : M heap Z :=
  present ← gtd_not_null;
  if present : bool then
    tie_loop (S (Z.to_nat ground_truth_dims)) ground_truth_dims
      (u64 (ground_truth_dims * i)) (u32 (recall_at - 1))
      (u32 (recall_at - 1))
  else mret recall_at.

(** Lines 150-151: the set [gt] of query [i]. *)
Definition ground_truth_set (ground_truth_dims recall_at i : Z)
  : M heap (gset Z) :=
  tie_breaker ← tie_break ground_truth_dims recall_at i;
  insert_range read_gti (u64 (ground_truth_dims * i))
    (Z.to_nat tie_breaker) ∅.

(** Lines 152-153: the set [res] of query [i]. *)
Definition result_set (result_dims recall_at i : Z) : M heap (gset Z) :=
  insert_range read_res (u64 (result_dims * i)) (Z.to_nat recall_at) ∅.

(** Lines 154-159: [cur_recall], an [unsigned] counter. *)
Definition count_found (gt res : gset Z) : Z :=
  foldl (fun cur_recall v =>
           if decide (v ∈ res) then u32 (cur_recall + 1) else cur_recall)
        0 (elements gt).

(** One iteration of the loop over the queries (lines 139-160); [gt] and
    [res] start out cleared. *)
Definition query_recall (ground_truth_dims result_dims recall_at i : Z)
  : M heap Z :=
  gt ← ground_truth_set ground_truth_dims recall_at i;
  res ← result_set result_dims recall_at i;
  mret (count_found gt res).

(** The loop over the queries, [n] iterations from index [i] on.
    [total_recall] is a double that only ever holds sums of counters
    (integers far below [2^53] for buffers that fit in memory, which a double
    holds exactly), kept here as the integer it stands for. *)
Fixpoint query_loop (n : nat) (ground_truth_dims result_dims recall_at : Z)
    (i total_recall : Z) : M heap Z :=
  match n with
  | O => mret total_recall
  | S n' =>
      cur_recall ← query_recall ground_truth_dims result_dims recall_at i;
      query_loop n' ground_truth_dims result_dims recall_at
        (i + 1) (total_recall + cur_recall)
  end.

(** Lines 136-161: [total_recall] after the loop. *)
Definition total_matched
    (num_queries ground_truth_dims result_dims recall_at : Z) : M heap Z :=
  query_loop (Z.to_nat num_queries) ground_truth_dims result_dims recall_at
    0 0.

(** Line 162. *)
Definition recall_value (total_recall num_queries recall_at : Z) : double :=
  dmul (ddiv (double_of_Z total_recall) (double_of_Z num_queries))
       (ddiv (DFin 100) (double_of_Z recall_at)).

Definition calculate_recall
    (num_queries ground_truth_dims result_dims recall_at : Z)
  : M heap double :=
  total_recall ←
    total_matched num_queries ground_truth_dims result_dims recall_at;
  mret (recall_value total_recall num_queries recall_at).

End CalculateRecall.

(** ** [calculate_recall_numpy_input] (lines 168-210)

    The second lambda repeats the body of the first; only [results] differs,
    a C-contiguous [py::array_t<unsigned>] whose [mutable_data()] is the
    pointer [r_ptr].  The conversion pybind11 performs to obtain that array
    is outside this file: the array is the one the body sees. *)

Module CalculateRecallNumpy.

Record ndarray : Type := NdArray {
  np_shape : list Z;
  np_data : list Z
}.

Definition mutable_data (a : ndarray) : list Z := np_data a.

Record heap : Type := Heap {
  ground_truth_ids : list Z;
  ground_truth_dists : option (list spec_float);
  results : ndarray
}.

Definition read_gti : Z -> M heap Z :=
  load (fun h => Some (ground_truth_ids h)).
Definition read_gtd : Z -> M heap spec_float := load ground_truth_dists.
Definition read_res : Z -> M heap Z :=
  load (fun h => Some (mutable_data (results h))).

Definition gtd_not_null : M heap bool :=
  fun h => Ok (bool_decide (ground_truth_dists h <> None), h).

Fixpoint tie_loop (fuel : nat) (ground_truth_dims base pivot tie_breaker : Z)
  : M heap Z :=
  match fuel with
  | O => out_of_fuel
  | S fuel' =>
      if tie_breaker <? ground_truth_dims then
        a ← read_gtd (base + tie_breaker);
        b ← read_gtd (base + pivot);
        if SFeqb a b
        then tie_loop fuel' ground_truth_dims base pivot (u64 (tie_breaker + 1))
        else mret tie_breaker
      else mret tie_breaker
  end.

Definition tie_break (ground_truth_dims recall_at i : Z) : M heap Z :=
  present ← gtd_not_null;
  if present : bool then
    tie_loop (S (Z.to_nat ground_truth_dims)) ground_truth_dims
      (u64 (ground_truth_dims * i)) (u32 (recall_at - 1))
      (u32 (recall_at - 1))
  else mret recall_at.

Definition ground_truth_set (ground_truth_dims recall_at i : Z)
  : M heap (gset Z) :=
  tie_breaker ← tie_break ground_truth_dims recall_at i;
  insert_range read_gti (u64 (ground_truth_dims * i))
    (Z.to_nat tie_breaker) ∅.

Definition result_set (result_dims recall_at i : Z) : M heap (gset Z) :=
  insert_range read_res (u64 (result_dims * i)) (Z.to_nat recall_at) ∅.

Definition count_found (gt res : gset Z) : Z :=
  foldl (fun cur_recall v =>
           if decide (v ∈ res) then u32 (cur_recall + 1) else cur_recall)
        0 (elements gt).

Definition query_recall (ground_truth_dims result_dims recall_at i : Z)
  : M heap Z :=
  gt ← ground_truth_set ground_truth_dims recall_at i;
  res ← result_set result_dims recall_at i;
  mret (count_found gt res).

Fixpoint query_loop (n : nat) (ground_truth_dims result_dims recall_at : Z)
    (i total_recall : Z) : M heap Z :=
  match n with
  | O => mret total_recall
  | S n' =>
      cur_recall ← query_recall ground_truth_dims result_dims recall_at i;
      query_loop n' ground_truth_dims result_dims recall_at
        (i + 1) (total_recall + cur_recall)
  end.

Definition total_matched
    (num_queries ground_truth_dims result_dims recall_at : Z) : M heap Z :=
  query_loop (Z.to_nat num_queries) ground_truth_dims result_dims recall_at
    0 0.

Definition recall_value (total_recall num_queries recall_at : Z) : double :=
  dmul (ddiv (double_of_Z total_recall) (double_of_Z num_queries))
       (ddiv (DFin 100) (double_of_Z recall_at)).


End CalculateRecallNumpy.

(** ** The two variants side by side *)

Module Variants.




End Variants.

(** ** Thread-count plumbing of the batch searches (lines 264-289, 333-362) *)

Module Omp.

(** The OpenMP runtime is a library the bindings link against.  Of its
    state only the [nthreads-var] control variable matters here: the number
    of threads a [parallel] region without a [num_threads] clause asks
    for. *)
Record runtime : Type := Runtime { nthreads_var : Z }.

(** [omp_set_num_threads(n)].  OpenMP leaves a non-positive [n] to the
    implementation; GNU libgomp falls back to one thread. *)
Definition omp_set_num_threads (n : Z) (rt : runtime) : runtime :=
  Runtime (if 0 <? n then n else 1).

(** A [#pragma omp parallel for] over [iterations] loop indices, as the
    runtime sees it. *)
Record parallel_region : Type := ParallelRegion {
  team : Z;
  iterations : Z
}.

Definition omp_parallel_for (iterations : Z) (rt : runtime)
  : parallel_region :=
  ParallelRegion (nthreads_var rt) iterations.

End Omp.

Module BatchSearch.
Import Omp.

(** What the two batch methods do to the OpenMP runtime, and the parallel
    region each one opens over the queries.  The loop bodies (one
    [cached_beam_search] per query and the copy of its ids) run inside the
    region, once its team is formed, and are not part of this skeleton. *)

(** Lines 271-285: resize, [omp_set_num_threads(num_threads)], then the
    parallel loop. *)
Definition batch_search (num_queries num_threads : Z) (rt : runtime)
  : runtime * parallel_region :=
  let rt' := omp_set_num_threads num_threads rt in
  (rt', omp_parallel_for num_queries rt').

(** Lines 341-358: allocation, then the parallel loop. *)
Definition batch_search_numpy_input (num_queries num_threads : Z)
    (rt : runtime) : runtime * parallel_region :=
  (rt, omp_parallel_for num_queries rt).

End BatchSearch.

(** ** [load_index] (lines 220-241) *)

Module LoadIndex.

(** Calls and console output of [load_index], in program order. *)
Inductive event : Type :=
| CallLoad (num_threads : Z) (pq_path index_path : string)
| CallCacheBfsLevels (num_nodes_to_cache : Z)
| PrintLoadFailed
| PrintLoaded (cached : nat).

Definition is_cache_call (e : event) : bool :=
  match e with
  | CallCacheBfsLevels _ => true
  | _ => false
  end.

Section Wrapper.

(** The wrapped [PQFlashIndex<float>] and the two methods [load_index]
    calls on it; [pq_flash_index.h] is not part of the sources at hand. *)
Variable PQFlashIndex : Type.
Variable load : Z -> string -> string -> PQFlashIndex -> PQFlashIndex * Z.
Variable cache_bfs_levels : Z -> PQFlashIndex -> PQFlashIndex * list Z.

(** Returns the index as the call leaves it, the events and the status. *)
Definition load_index (self : PQFlashIndex) (index_path_prefix : string)
    (num_threads : Z) : PQFlashIndex * list event * Z :=
  let pq_path := index_path_prefix in
  let index_path := String.append index_path_prefix "_disk.index" in
  let '(self1, load_success) := load num_threads pq_path index_path self in
  if negb (load_success =? 0) then
    (self1, [CallLoad num_threads pq_path index_path; PrintLoadFailed],
     load_success)
  else
    let num_nodes_to_cache := 1000 in
    let '(self2, node_list) := cache_bfs_levels num_nodes_to_cache self1 in
    (self2,
     [CallLoad num_threads pq_path index_path;
      CallCacheBfsLevels num_nodes_to_cache;
      PrintLoaded (length node_list)],
     0).

End Wrapper.

End LoadIndex.

(** ** The wrapped index, as far as the specification describes it *)

Module PQFlashIndexSpec.

(** Modelled from the spec: the states of an instance of [PQFlashIndex],
    whose class is absent from the sources ([Unloaded -> Loaded]). *)
Inductive phase : Type := Unloaded | Loaded.

(** Modelled from the spec: what [PQFlashIndex::load], absent from the
    sources, may find at a path: a file that is missing, truncated or
    header-inconsistent makes the load fail. *)
Inductive file_state : Type :=
| Missing
| Truncated
| HeaderInconsistent
| WellFormed.

(** Modelled from the spec: the class [PQFlashIndex] ([pq_flash_index.h],
    absent from the sources).  An instance is [Unloaded] or [Loaded]; it
    reads its files from [storage]; [bfs_order] is the breadth-first order of
    the graph from its entry point; [cache_set] are the nodes whose records
    are held in memory. *)
Record PQFlashIndex : Type := Index {
  state : phase;
  storage : string -> file_state;
  bfs_order : list Z;
  cache_set : list Z
}.

(** Modelled from the spec: [PQFlashIndex::load].  It fails, with a
    non-zero status, if a file is missing, truncated or header-inconsistent,
    and the instance is then not loaded; otherwise the instance becomes
    queryable and the status is 0. *)
Definition load (num_threads : Z) (pq_path index_path : string)
    (x : PQFlashIndex) : PQFlashIndex * Z :=
  match storage x pq_path, storage x index_path with
  | WellFormed, WellFormed =>
      (Index Loaded (storage x) (bfs_order x) (cache_set x), 0)
  | _, _ =>
      (Index Unloaded (storage x) (bfs_order x) (cache_set x), -1)
  end.

(** Modelled from the spec: [PQFlashIndex::cache_bfs_levels], the
    warm-cache step: the first [node_budget] nodes of the breadth-first
    traversal are retained in the cache set and reported. *)
Definition cache_bfs_levels (node_budget : Z) (x : PQFlashIndex)
  : PQFlashIndex * list Z :=
  let nodes := take (Z.to_nat node_budget) (bfs_order x) in
  (Index (state x) (storage x) (bfs_order x) nodes, nodes).

(** Modelled from the spec: no query is serviced before [load] completes. *)
Definition queryable (x : PQFlashIndex) : bool :=
  match state x with
  | Loaded => true
  | Unloaded => false
  end.

(** [load_index] of the bindings over this index. *)
Definition load_index :=
  LoadIndex.load_index PQFlashIndex load cache_bfs_levels.

End PQFlashIndexSpec.

(** ** The recall formula, in the specification's words *)

Module RecallSpec.
Import CalculateRecall.

(** The first [recall_at] entries of the results of query [i]. *)
Definition res_set (h : heap) (result_dims recall_at i : Z) : gset Z :=
  list_to_set
    (take (Z.to_nat recall_at) (drop (Z.to_nat (result_dims * i)) (results h))).

(** Matched ids of query [i]: the ids of its ground-truth set that also
    appear among the first [recall_at] entries of its results. *)
Definition matched (h : heap) (ground_truth_dims result_dims recall_at i : Z)
  : Z :=
  match value (ground_truth_set ground_truth_dims recall_at i h) with
  | Ok gt => Z.of_nat (size (gt ∩ res_set h result_dims recall_at i))
  | _ => 0
  end.

Definition total_matched (h : heap)
    (num_queries ground_truth_dims result_dims recall_at : Z) : Z :=
  foldr Z.add 0
    (map (matched h ground_truth_dims result_dims recall_at)
         (seqZ 0 num_queries)).


(** Row [i] of the distance buffer [d] has equal distances at columns [a]
    and [b], under the [==] of [float]. *)
Definition tied (d : list spec_float) (width i a b : Z) : bool :=
  match index d (width * i + a), index d (width * i + b) with
  | Some x, Some y => SFeqb x y
  | _, _ => false
  end.


(** The arguments respect the bounds the evaluator relies on. *)
Record valid_input (h : heap)
    (num_queries ground_truth_dims result_dims recall_at : Z) : Prop := {
  valid_num_queries : is_u32 num_queries;
  valid_ground_truth_dims : is_u32 ground_truth_dims;
  valid_result_dims : is_u32 result_dims;
  valid_recall_at : 1 <= recall_at;
  valid_recall_gt : recall_at <= ground_truth_dims;
  valid_recall_res : recall_at <= result_dims;
  valid_ids :
    num_queries * ground_truth_dims
    <= Z.of_nat (length (ground_truth_ids h));
  valid_dists :
    forall d, ground_truth_dists h = Some d ->
              num_queries * ground_truth_dims <= Z.of_nat (length d);
  valid_results :
    num_queries * result_dims <= Z.of_nat (length (results h))
}.

End RecallSpec.

(** ** Sample inputs *)

Module Samples.
Import CalculateRecall.

(** The [float] values 1, 2 and 3. *)
Definition f1 : spec_float := S754_finite false 8388608 (-23).
Definition f2 : spec_float := S754_finite false 8388608 (-22).
Definition f3 : spec_float := S754_finite false 12582912 (-22).

(** One query, four ground-truth neighbours at distances 1, 1, 2, 3, and a
    single result: the id of rank 1. *)
Definition tied_pair : heap :=
  Heap [10; 11; 12; 13] (Some [f1; f1; f2; f3]) [11].

(** Two queries with two ground-truth neighbours each, all four at
    distance 1: the ties of the first query run on into the row of the
    second. *)
Definition long_run : heap :=
  Heap [10; 11; 12; 13] (Some [f1; f1; f1; f1]) [10; 12].

(** The same ground truth without distances. *)
Definition no_dists : heap :=
  Heap [10; 11; 12; 13] None [11; 12].


(** An index whose files are all in order, and one whose files are
    missing. *)
Definition good_index : PQFlashIndexSpec.PQFlashIndex :=
  PQFlashIndexSpec.Index PQFlashIndexSpec.Unloaded
    (fun _ => PQFlashIndexSpec.WellFormed) [0; 1; 2] [].

Definition missing_index : PQFlashIndexSpec.PQFlashIndex :=
  PQFlashIndexSpec.Index PQFlashIndexSpec.Unloaded
    (fun _ => PQFlashIndexSpec.Missing) [0; 1; 2] [].

End Samples.

(** ** The module-level OpenMP lambdas (lines 82-87) *)

Module OmpBindings.

(** Conversion of a [size_t] to the [int] parameter of the runtime call. *)
Definition to_int (z : Z) : Z := (z + 2 ^ 31) mod 2 ^ 32 - 2 ^ 31.

(** [omp_set_num_threads], the lambda of line 84. *)
Definition omp_set_num_threads (num_threads : Z) (rt : Omp.runtime)
  : Omp.runtime :=
  Omp.omp_set_num_threads (to_int num_threads) rt.


End OmpBindings.

(** ** The data flow of [search] and [batch_search] (lines 242-289) *)

Module Search.

(** The output vectors [ids] and [dists], which both methods receive by
    reference and update in place. *)
Record vectors : Type := Vectors {
  ids : list Z;
  dists : list spec_float
}.

Definition and_then {A B} (o : outcome A) (k : A -> outcome B) : outcome B :=
  match o with
  | Ok a => k a
  | OutOfBounds => OutOfBounds
  | OutOfFuel => OutOfFuel
  end.

(** [v.resize(n)]: the first [n] elements, filled up with zeros. *)
Definition resize {A} (zero : A) (n : Z) (l : list A) : list A :=
  take (Z.to_nat n) l ++ replicate (Z.to_nat n - length l) zero.

(** [p[i] = x] *)
Definition store {A} (l : list A) (i : Z) (x : A) : outcome (list A) :=
  if (0 <=? i) && (i <? Z.of_nat (length l))
  then Ok (<[Z.to_nat i := x]> l)
  else OutOfBounds.

(** The writes a callee makes through the pointer [p + first]: the values
    [w], to consecutive elements. *)
Fixpoint store_range {A} (l : list A) (first : Z) (w : list A)
  : outcome (list A) :=
  match w with
  | [] => Ok l
  | x :: w' =>
      and_then (store l first x) (fun l' => store_range l' (first + 1) w')
  end.

(** Lines 249-252 and 271-274: [ids] too short makes both vectors
    [knn * num_queries] long; the length of [dists] is not looked at. *)
Definition grow (knn num_queries : Z) (v : vectors) : vectors :=
  if Z.of_nat (length (ids v)) <? u64 (knn * num_queries) then
    Vectors (resize 0 (u64 (knn * num_queries)) (ids v))
            (resize (S754_zero false) (u64 (knn * num_queries)) (dists v))
  else v.

(** Lines 258-259 and 283-284: [ids[base + i] = u64_ids[i]], for [n]
    values of [i] from [i] on; the 64-bit id is cut down to [unsigned]. *)
Fixpoint copy_ids (n : nat) (i base : Z) (u64_ids ids : list Z)
  : outcome (list Z) :=
  match n with
  | O => Ok ids
  | S n' =>
      match index u64_ids i with
      | Some x =>
          and_then (store ids (u64 (base + i)) (u32 x))
            (fun ids' => copy_ids n' (i + 1) base u64_ids ids')
      | None => OutOfBounds
      end
  end.

Section Engine.

(** [PQFlashIndex::cached_beam_search], whose class is not among the
    sources: for the query that starts at an offset of the query buffer,
    with [k_search], [l_search] and [beam_width], and a flag telling whether
    a [QueryStats] is passed, the values it writes to its [indices] and to
    its [distances] pointer, from element 0 on. *)
Variable cached_beam_search :
  list spec_float -> Z -> Z -> Z -> Z -> bool -> list Z * list spec_float.

(** Lines 253-259: one query into its slot of the two vectors. *)
Definition search_slot (query : list spec_float)
    (query_idx dim knn l_search beam_width : Z) (v : vectors)
  : outcome vectors :=
  let '(found_ids, found_dists) :=
    cached_beam_search query (u64 (query_idx * dim)) knn l_search beam_width
      true in
  and_then (store_range (replicate (Z.to_nat knn) 0) 0 found_ids)
    (fun _u64_ids =>
  and_then (store_range (dists v) (u64 (query_idx * knn)) found_dists)
    (fun dists' =>
  and_then (copy_ids (Z.to_nat knn) 0 (u64 (query_idx * knn)) _u64_ids
              (ids v))
    (fun ids' => Ok (Vectors ids' dists')))).

(** [search] (lines 244-260). *)
Definition search (query : list spec_float)
    (query_idx dim num_queries knn l_search beam_width : Z) (v : vectors)
  : outcome vectors :=
  search_slot query query_idx dim knn l_search beam_width
    (grow knn num_queries v).

(** Lines 278-284: the body of the parallel loop, for query [q]. *)
Definition batch_iteration (queries : list spec_float)
    (dim knn l_search beam_width q : Z) (v : vectors) : outcome vectors :=
  let '(found_ids, found_dists) :=
    cached_beam_search queries (u64 (q * dim)) knn l_search beam_width
      false in
  and_then (store_range (replicate (Z.to_nat knn) 0) 0 found_ids)
    (fun u64_ids =>
  and_then (store_range (dists v) (u64 (q * knn)) found_dists)
    (fun dists' =>
  and_then (copy_ids (Z.to_nat knn) 0 (u64 (q * knn)) u64_ids (ids v))
    (fun ids' => Ok (Vectors ids' dists')))).

(** Iterations run one after the other, in the order given. *)
Fixpoint run_iterations (body : Z -> vectors -> outcome vectors)
    (order : list Z) (v : vectors) : outcome vectors :=
  match order with
  | [] => Ok v
  | q :: rest => and_then (body q v) (run_iterations body rest)
  end.

(** Lines 271-285 on the two vectors.  The iterations of the parallel
    loop write to separate slots; they are taken whole, in the order
    [order] in which the threads get to them. *)
Definition batch_search_in_order (order : list Z)
    (queries : list spec_float)
    (dim num_queries knn l_search beam_width : Z) (v : vectors)
  : outcome vectors :=
  run_iterations (batch_iteration queries dim knn l_search beam_width)
    order (grow knn num_queries v).

(** [batch_search] (lines 266-285): the effect on the OpenMP runtime, the
    parallel region, and the vectors when the queries are taken in
    ascending order. *)
Definition batch_search (queries : list spec_float)
    (dim num_queries knn l_search beam_width num_threads : Z)
    (rt : Omp.runtime) (v : vectors)
  : Omp.runtime * Omp.parallel_region * outcome vectors :=
  (BatchSearch.batch_search num_queries num_threads rt,
   batch_search_in_order (seqZ 0 num_queries) queries dim num_queries knn
     l_search beam_width v).

End Engine.

(** [l] with the values [w] written over it from position [first] on. *)
Definition overwrite {A} (l : list A) (first : Z) (w : list A) : list A :=
  imap (fun p x =>
          if decide (first <= Z.of_nat p < first + Z.of_nat (length w))
          then default x (w !! Z.to_nat (Z.of_nat p - first))
          else x) l.

(** The vectors with the slot that starts at [slot] taken by the results
    [e] of the engine: the [knn] cells of the id buffer, zero where the
    engine wrote nothing, cut down to [unsigned], and the distances
    written. *)
Definition fill_slot (e : list Z * list spec_float) (slot knn : Z)
    (v : vectors) : vectors :=
  Vectors
    (overwrite (ids v) slot
       (map u32 (overwrite (replicate (Z.to_nat knn) 0) 0 (fst e))))
    (overwrite (dists v) slot (snd e)).

(** The slots of the queries of [order] taken one after the other, [e q]
    being the results of the engine for query [q]. *)
Definition fill_slots (e : Z -> list Z * list spec_float) (knn : Z)
    (order : list Z) (v : vectors) : vectors :=
  foldl (fun v q => fill_slot (e q) (q * knn) knn v) v order.

End Search.

(** ** The data flow of the numpy searches (lines 307-362) *)

Module SearchNumpy.
Import Search.

(** A C-contiguous [py::array_t<float>]: its extents and its elements in
    row-major order. *)
Record farray : Type := FArray {
  fa_shape : list Z;
  fa_data : list spec_float
}.

(** A freshly made [py::array_t] of [n] elements: its contents are whatever
    the allocation holds, [garbage p] at position [p]. *)
Definition fresh {A} (garbage : nat -> A) (n : Z) : list A :=
  map garbage (seq 0 (Z.to_nat n)).

(** Conversion of a [_u64] index to the [ssize_t] the array takes. *)
Definition to_ssize (z : Z) : Z := (z + 2 ^ 63) mod 2 ^ 64 - 2 ^ 63.

(** [a.data(i)] and [a.mutable_data(i)], one index on the first axis: the
    element offset of row [i], the index being checked against the first
    extent.  [None] is an index that fails the check (or an array without
    axes); inside the parallel loop nothing catches the exception. *)
Definition data_at (shape : list Z) (i : Z) : option Z :=
  match shape with
  | [] => None
  | extent :: rest =>
      if to_ssize i <? extent
      then Some (to_ssize i * foldr Z.mul 1 rest)
      else None
  end.

Section Engine.

Variable cached_beam_search :
  list spec_float -> Z -> Z -> Z -> Z -> bool -> list Z * list spec_float.

(** [search_numpy_input] (lines 309-329): the pair of arrays returned. *)
Definition search_numpy_input (query : farray)
    (dim knn l_search beam_width : Z)
    (garbage_ids : nat -> Z) (garbage_dists : nat -> spec_float)
  : outcome (list Z * list spec_float) :=
  let ids := fresh garbage_ids knn in
  let dists := fresh garbage_dists knn in
  let '(found_ids, found_dists) :=
    cached_beam_search (fa_data query) 0 knn l_search beam_width true in
  and_then (store_range (replicate (Z.to_nat knn) 0) 0 found_ids)
    (fun u64_ids =>
  and_then (store_range dists 0 found_dists)
    (fun dists' =>
  and_then (copy_ids (Z.to_nat knn) 0 0 u64_ids ids)
    (fun ids' => Ok (ids', dists')))).

(** Lines 347-352: the body of the parallel loop, for query [i]; the
    vectors are the shared [u64_ids] and the array [dists]. *)
Definition numpy_iteration (queries : farray)
    (knn l_search beam_width i : Z) (st : vectors) : outcome vectors :=
  match data_at (fa_shape queries) i,
        data_at [Z.of_nat (length (dists st))] (u64 (i * knn)) with
  | Some query_offset, Some dists_offset =>
      let '(found_ids, found_dists) :=
        cached_beam_search (fa_data queries) query_offset knn l_search
          beam_width false in
      and_then (store_range (ids st) (u64 (i * knn)) found_ids)
        (fun u64_ids =>
      and_then (store_range (dists st) dists_offset found_dists)
        (fun dists' => Ok (Vectors u64_ids dists')))
  | _, _ => OutOfBounds
  end.

(** Lines 341-358 with the iterations of the parallel loop taken whole,
    in the order [order]. *)
Definition batch_search_numpy_input_in_order (order : list Z)
    (queries : farray) (dim num_queries knn l_search beam_width : Z)
    (garbage_ids : nat -> Z) (garbage_dists : nat -> spec_float)
  : outcome (list Z * list spec_float) :=
  let n := u64 (knn * num_queries) in
  let ids := fresh garbage_ids n in
  let dists := fresh garbage_dists n in
  let u64_ids := replicate (Z.to_nat n) 0 in
  and_then
    (run_iterations (numpy_iteration queries knn l_search beam_width) order
       (Vectors u64_ids dists))
    (fun st =>
  and_then (copy_ids (Z.to_nat n) 0 0 (Search.ids st) ids)
    (fun ids' => Ok (ids', Search.dists st))).

(** [batch_search_numpy_input] (lines 335-358): the parallel region, which
    runs with the thread count the runtime holds, and the arrays returned
    when the queries are taken in ascending order. *)
Definition batch_search_numpy_input (queries : farray)
    (dim num_queries knn l_search beam_width num_threads : Z)
    (rt : Omp.runtime)
    (garbage_ids : nat -> Z) (garbage_dists : nat -> spec_float)
  : Omp.runtime * Omp.parallel_region
    * outcome (list Z * list spec_float) :=
  (BatchSearch.batch_search_numpy_input num_queries num_threads rt,
   batch_search_numpy_input_in_order (seqZ 0 num_queries) queries dim
     num_queries knn l_search beam_width garbage_ids garbage_dists).

End Engine.

End SearchNumpy.

(** ** [load_truthset] (lines 106-124) *)

Module Truthset.
Import Search.

(** [v.assign(p, p + n)] for a pointer [p], [None] standing for the null
    pointer: [n] elements are read, from element [first] on. *)
Fixpoint copy_range {A} (p : option (list A)) (first : Z) (n : nat)
  : outcome (list A) :=
  match n with
  | O => Ok []
  | S n' =>
      match p with
      | Some l =>
          match index l first with
          | Some x =>
              and_then (copy_range p (first + 1) n') (fun r => Ok (x :: r))
          | None => OutOfBounds
          end
      | None => OutOfBounds
      end
  end.

Section Loader.

(** [diskann::load_truthset], which is not among the sources: for a path,
    what it leaves in the four references the lambda hands it.  The lambda
    sets both pointers to null beforehand (lines 110-111), so [None] is a
    pointer the loader did not set. *)
Variable load_truthset_file :
  string -> option (list Z) * option (list spec_float) * Z * Z.

(** The new contents of [ids] and [distances], and the list returned. *)
Definition load_truthset (path : string)
  : outcome (list Z * list spec_float * list Z) :=
  let '(id_ptr, dist_ptr, num, dims) := load_truthset_file path in
  and_then (copy_range id_ptr 0 (Z.to_nat (u64 (num * dims)))) (fun ids =>
  and_then (copy_range dist_ptr 0 (Z.to_nat (u64 (num * dims))))
    (fun distances => Ok (ids, distances, [num; dims]))).

End Loader.

End Truthset.

(** ** More sample inputs *)

Module MoreSamples.
Import CalculateRecall Samples.

(** One query with three ground-truth neighbours, the second at a NaN
    distance, and two results. *)
Definition nan_rank : heap :=
  Heap [10; 11; 12] (Some [f1; S754_nan; f2]) [10; 11].

(** One query with three ground-truth neighbours, and its first two
    results in both orders. *)
Definition in_order : heap := Heap [10; 11; 12] (Some [f1; f2; f3]) [10; 11].
Definition swapped : heap := Heap [10; 11; 12] (Some [f1; f2; f3]) [11; 10].


(** An engine that finds, for the query at [offset], the [knn] nodes
    [2^32 + offset], [2^32 + offset + 1], ..., all at distance 1. *)
Definition toy_engine (queries : list spec_float)
    (offset knn l_search beam_width : Z) (stats : bool)
  : list Z * list spec_float :=
  (map (fun j => 2 ^ 32 + offset + j) (seqZ 0 knn),
   replicate (Z.to_nat knn) f1).

(** Two queries of dimension 1. *)
Definition two_queries : list spec_float := [f1; f2].

(** A loader that finds one query with four neighbours, with and without
    distances. *)
Definition toy_loader (path : string)
  : option (list Z) * option (list spec_float) * Z * Z :=
  (Some [10; 11; 12; 13], Some [f1; f1; f2; f3], 1, 4).

Definition toy_loader_ids_only (path : string)
  : option (list Z) * option (list spec_float) * Z * Z :=
  (Some [10; 11; 12; 13], None, 1, 4).

End MoreSamples.

(** ** Proof tools *)



(** * Properties *)

(** ** Machine arithmetic *)

Lemma u32_small z : is_u32 z -> u32 z = z.
Proof. intros Hz. unfold u32. apply Z.mod_small. exact Hz. Qed.

Lemma u64_small z : 0 <= z < 2 ^ 64 -> u64 z = z.
Proof. intros Hz. unfold u64. apply Z.mod_small. exact Hz. Qed.

Lemma u64_offset w i n :
  is_u32 w -> is_u32 n -> 0 <= i < n -> u64 (w * i) = w * i.
Proof.
  unfold is_u32. intros Hw Hn Hi. apply u64_small.
  assert (2 ^ 32 * 2 ^ 32 = 2 ^ 64) by reflexivity. nia.
Qed.

(** ** The memory monad *)

Section MemFacts.
Context {S : Type}.

Lemma bind_ok {A B} (m : M S A) (k : A -> M S B) h a h' :
  m h = Ok (a, h') -> (m ≫= k) h = k a h'.
Proof. intros E. unfold mbind, M_bind, bind. rewrite E. reflexivity. Qed.

Lemma bind_inv {A B} (m : M S A) (k : A -> M S B) h b h2 :
  (m ≫= k) h = Ok (b, h2) ->
  exists a h1, m h = Ok (a, h1) /\ k a h1 = Ok (b, h2).
Proof.
  unfold mbind, M_bind, bind. destruct (m h) as [[a h1]| |] eqn:E;
    [|discriminate..].
  intros Hk. exists a, h1. split; [reflexivity|exact Hk].
Qed.

Lemma index_Some {A} (l : list A) i x :
  index l i = Some x <-> 0 <= i /\ l !! Z.to_nat i = Some x.
Proof.
  unfold index. destruct (Z.ltb_spec i 0); split.
  - discriminate.
  - intros [? _]. lia.
  - auto.
  - intros [_ ?]. assumption.
Qed.

Lemma index_in_range {A} (l : list A) i :
  0 <= i < Z.of_nat (length l) -> exists x, index l i = Some x.
Proof.
  intros Hi. destruct (lookup_lt_is_Some_2 l (Z.to_nat i)) as [x Hx];
    [lia|].
  exists x. apply index_Some. split; [lia|exact Hx].
Qed.

Lemma load_ok {A} (buf : S -> option (list A)) i h l x :
  buf h = Some l -> index l i = Some x -> load buf i h = Ok (x, h).
Proof. intros Hb Hx. unfold load. rewrite Hb, Hx. reflexivity. Qed.

Lemma reads_only_ret {A} (a : A) : reads_only (mret a : M S A).
Proof. intros h a' h' E. unfold mret, M_ret, ret in E. congruence. Qed.

Lemma reads_only_bind {A B} (m : M S A) (k : A -> M S B) :
  reads_only m -> (forall a, reads_only (k a)) -> reads_only (m ≫= k).
Proof.
  intros Hm Hk h b h2 E. apply bind_inv in E as (a & h1 & E1 & E2).
  apply Hm in E1 as ->. apply Hk in E2. exact E2.
Qed.

Lemma reads_only_load {A} (buf : S -> option (list A)) i :
  reads_only (load buf i).
Proof.
  intros h a h'. unfold load. destruct (buf h) as [l|]; [|discriminate].
  destruct (index l i); [|discriminate]. congruence.
Qed.

Lemma reads_only_insert_range rd n :
  (forall i, reads_only (rd i)) ->
  forall first s, reads_only (insert_range (S:=S) rd first n s).
Proof.
  intros Hrd. induction n as [|n IH]; intros first s; simpl.
  - apply reads_only_ret.
  - apply reads_only_bind; [apply Hrd|]. intros v. apply IH.
Qed.

(** An in-bounds range insert adds exactly the elements of the range. *)
Lemma insert_range_ok (buf : S -> option (list Z)) h l n :
  buf h = Some l ->
  forall first s,
    0 <= first ->
    (Z.to_nat first + n <= length l)%nat ->
    insert_range (load buf) first n s h
    = Ok (list_to_set (take n (drop (Z.to_nat first) l)) ∪ s, h).
Proof.
  intros Hb. induction n as [|n IH]; intros first s Hf Hlen; simpl.
  - unfold mret, M_ret, ret. rewrite (left_id_L ∅ (∪)). reflexivity.
  - destruct (lookup_lt_is_Some_2 l (Z.to_nat first)) as [v Hv]; [lia|].
    erewrite bind_ok; [|eapply load_ok; [exact Hb|apply index_Some; eauto]].
    rewrite IH by lia.
    rewrite (drop_S l v (Z.to_nat first) Hv). simpl.
    replace (Z.to_nat (first + 1)) with (Datatypes.S (Z.to_nat first)) by lia.
    rewrite (comm_L (∪) {[v]} (list_to_set _)), <- (assoc_L (∪)).
    reflexivity.
Qed.

End MemFacts.

(** ** The tie-break scan *)

Section TieBreak.
Import CalculateRecall RecallSpec.

Variables (h : heap) (d : list spec_float).
Variables (ground_truth_dims i pivot : Z).
Hypothesis Hdists : ground_truth_dists h = Some d.
Hypothesis Hdims : is_u32 ground_truth_dims.
Hypothesis Hi : 0 <= i.
Hypothesis Hrow :
  ground_truth_dims * i + ground_truth_dims <= Z.of_nat (length d).
Hypothesis Hpivot : 0 <= pivot < ground_truth_dims.

Lemma read_gtd_row j :
  0 <= j < ground_truth_dims ->
  exists x, index d (ground_truth_dims * i + j) = Some x
            /\ read_gtd (ground_truth_dims * i + j) h = Ok (x, h).
Proof.
  intros Hj. destruct (index_in_range d (ground_truth_dims * i + j)) as [x Hx];
    [nia|].
  exists x. split; [exact Hx|]. unfold read_gtd.
  eapply load_ok; eassumption.
Qed.

(** With enough budget the loop ends normally, on the first column at or
    after its start that is not tied with the pivot, or at the row's end. *)
Lemma tie_loop_spec fuel :
  forall tb,
    0 <= tb <= ground_truth_dims ->
    (Z.to_nat (ground_truth_dims - tb) < fuel)%nat ->
    exists tb',
      tie_loop fuel ground_truth_dims (ground_truth_dims * i) pivot tb h
      = Ok (tb', h)
      /\ tb <= tb' <= ground_truth_dims
      /\ (forall j, tb <= j < tb' ->
                    tied d ground_truth_dims i j pivot = true)
      /\ (tb' < ground_truth_dims ->
          tied d ground_truth_dims i tb' pivot = false).
Proof.
  induction fuel as [|fuel IH]; intros tb Htb Hfuel; [lia|].
  simpl. destruct (Z.ltb_spec tb ground_truth_dims) as [Hlt|Hge].
  - destruct (read_gtd_row tb) as (a & Ha & Ra); [lia|].
    destruct (read_gtd_row pivot) as (b & Hb & Rb); [lia|].
    rewrite (bind_ok _ _ _ _ _ Ra), (bind_ok _ _ _ _ _ Rb).
    destruct (SFeqb a b) eqn:Eab.
    + rewrite u64_small by (unfold is_u32 in Hdims; lia).
      destruct (IH (tb + 1)) as (tb' & Run & Hb' & Hties & Hstop); [lia|lia|].
      exists tb'. split; [exact Run|]. split; [lia|]. split; [|exact Hstop].
      intros j Hj. destruct (Z.eq_dec j tb) as [->|Hne].
      * unfold tied. rewrite Ha, Hb. exact Eab.
      * apply Hties. lia.
    + exists tb. split; [reflexivity|]. split; [lia|]. split; [intros j; lia|].
      intros _. unfold tied. rewrite Ha, Hb. exact Eab.
  - exists tb. split; [reflexivity|]. split; [lia|]. split; intros; lia.
Qed.

End TieBreak.

(** ** Counting the matches *)

Section Counting.
Import CalculateRecall.

Lemma size_list_to_set_le (l : list Z) :
  (size (list_to_set l : gset Z) <= length l)%nat.
Proof.
  induction l as [|x l IH].
  - rewrite list_to_set_nil, size_empty. simpl. lia.
  - rewrite list_to_set_cons, size_union_alt, size_singleton.
    pose proof (subseteq_size (list_to_set l ∖ {[x]})
                  (list_to_set l : gset Z)) as Hsub.
    assert ((list_to_set l ∖ {[x]} : gset Z) ⊆ list_to_set l) as Hincl.
    { intros y Hy. apply elem_of_difference in Hy. tauto. }
    specialize (Hsub Hincl). simpl. lia.
Qed.

Lemma counter_loop (res : gset Z) (l : list Z) :
  forall c,
    0 <= c ->
    c + Z.of_nat (length l) < 2 ^ 32 ->
    foldl (fun cur_recall v =>
             if decide (v ∈ res) then u32 (cur_recall + 1) else cur_recall)
          c l
    = c + Z.of_nat (length (filter (fun v => v ∈ res) l)).
Proof.
  induction l as [|v l IH]; intros c Hc Hlen; simpl in *.
  - lia.
  - pose proof (length_filter (fun v => v ∈ res) l) as Hf.
    rewrite filter_cons. destruct (decide (v ∈ res)) as [Hin|Hout].
    + rewrite u32_small by (unfold is_u32; lia).
      rewrite IH by lia. simpl. lia.
    + rewrite IH by lia. reflexivity.
Qed.

Lemma filter_elements_size (gt res : gset Z) :
  length (filter (fun v => v ∈ res) (elements gt)) = size (gt ∩ res).
Proof.
  unfold size, set_size. simpl. apply Permutation_length.
  apply NoDup_Permutation.
  - apply NoDup_filter, NoDup_elements.
  - apply NoDup_elements.
  - intros x. rewrite list_elem_of_filter, !elem_of_elements.
    rewrite elem_of_intersection. tauto.
Qed.

(** The counter never wraps, and counts the common ids. *)
Lemma count_found_size (gt res : gset Z) :
  Z.of_nat (size gt) < 2 ^ 32 ->
  count_found gt res = Z.of_nat (size (gt ∩ res)).
Proof.
  intros Hsize. unfold count_found.
  rewrite counter_loop; [|lia|exact Hsize].
  rewrite filter_elements_size. lia.
Qed.

End Counting.

(** ** One query, and the loop over the queries *)

Section Queries.
Import CalculateRecall RecallSpec.

Variables (h : heap) (num_queries ground_truth_dims result_dims recall_at : Z).
Hypothesis Hvalid :
  valid_input h num_queries ground_truth_dims result_dims recall_at.

Lemma recall_at_u32 : is_u32 recall_at.
Proof. destruct Hvalid. unfold is_u32 in *. lia. Qed.

Lemma pivot_in_row :
  u32 (recall_at - 1) = recall_at - 1
  /\ 0 <= recall_at - 1 < ground_truth_dims.
Proof.
  pose proof recall_at_u32 as Hk. destruct Hvalid.
  split; [apply u32_small; unfold is_u32 in *|]; lia.
Qed.

Lemma tie_break_absent i :
  ground_truth_dists h = None ->
  tie_break ground_truth_dims recall_at i h = Ok (recall_at, h).
Proof.
  intros Hnone. unfold tie_break.
  erewrite bind_ok by reflexivity. rewrite Hnone. reflexivity.
Qed.

Lemma tie_break_present d i :
  ground_truth_dists h = Some d ->
  0 <= i < num_queries ->
  exists tb,
    tie_break ground_truth_dims recall_at i h = Ok (tb, h)
    /\ recall_at - 1 <= tb <= ground_truth_dims
    /\ (forall j, recall_at - 1 <= j < tb ->
                  tied d ground_truth_dims i j (recall_at - 1) = true)
    /\ (tb < ground_truth_dims ->
        tied d ground_truth_dims i tb (recall_at - 1) = false).
Proof.
  intros Hd Hi. destruct pivot_in_row as [Hpu Hp].
  pose proof Hvalid as [Hnq Hgd Hrd Hk1 Hkg Hkr Hids Hdists Hres].
  specialize (Hdists d Hd).
  unfold tie_break. erewrite bind_ok by reflexivity. rewrite Hd.
  rewrite bool_decide_true by discriminate.
  rewrite Hpu, (u64_offset _ _ num_queries) by assumption.
  apply (tie_loop_spec h d ground_truth_dims i (recall_at - 1));
    try assumption; try lia; nia.
Qed.

(** Whether or not distances are given, [tie_breaker] stays within the
    ground-truth row. *)
Lemma tie_break_in_row i :
  0 <= i < num_queries ->
  exists tb,
    tie_break ground_truth_dims recall_at i h = Ok (tb, h)
    /\ 0 <= tb <= ground_truth_dims.
Proof.
  intros Hi. destruct (ground_truth_dists h) as [d|] eqn:Hd.
  - destruct (tie_break_present d i Hd Hi) as (tb & Run & Hb & _).
    destruct Hvalid. exists tb. split; [exact Run|lia].
  - exists recall_at. split; [apply tie_break_absent; exact Hd|].
    destruct Hvalid. lia.
Qed.

Lemma ground_truth_set_ok i tb :
  0 <= i < num_queries ->
  tie_break ground_truth_dims recall_at i h = Ok (tb, h) ->
  0 <= tb <= ground_truth_dims ->
  ground_truth_set ground_truth_dims recall_at i h
  = Ok (list_to_set
          (take (Z.to_nat tb)
             (drop (Z.to_nat (ground_truth_dims * i)) (ground_truth_ids h))),
        h).
Proof.
  intros Hi Run Htb.
  pose proof Hvalid as [Hnq Hgd Hrd Hk1 Hkg Hkr Hids Hdists Hres].
  unfold ground_truth_set. rewrite (bind_ok _ _ _ _ _ Run).
  rewrite (u64_offset _ _ num_queries) by assumption.
  unfold read_gti.
  erewrite (insert_range_ok _ h (ground_truth_ids h)); [|reflexivity|nia|nia].
  rewrite (right_id_L ∅ (∪)). reflexivity.
Qed.

Lemma result_set_ok i :
  0 <= i < num_queries ->
  result_set result_dims recall_at i h
  = Ok (res_set h result_dims recall_at i, h).
Proof.
  intros Hi.
  pose proof Hvalid as [Hnq Hgd Hrd Hk1 Hkg Hkr Hids Hdists Hres].
  unfold result_set, res_set.
  rewrite (u64_offset _ _ num_queries) by assumption.
  unfold read_res.
  erewrite (insert_range_ok _ h (results h)); [|reflexivity|nia|nia].
  rewrite (right_id_L ∅ (∪)). reflexivity.
Qed.

Lemma query_recall_ok i :
  0 <= i < num_queries ->
  query_recall ground_truth_dims result_dims recall_at i h
  = Ok (matched h ground_truth_dims result_dims recall_at i, h).
Proof.
  intros Hi. destruct (tie_break_in_row i Hi) as (tb & Run & Htb).
  pose proof (ground_truth_set_ok i tb Hi Run Htb) as Hgt.
  unfold query_recall, matched.
  rewrite (bind_ok _ _ _ _ _ Hgt), (bind_ok _ _ _ _ _ (result_set_ok i Hi)).
  rewrite Hgt. simpl. unfold mret, M_ret, ret.
  rewrite count_found_size; [reflexivity|].
  pose proof (size_list_to_set_le
                (take (Z.to_nat tb)
                   (drop (Z.to_nat (ground_truth_dims * i))
                      (ground_truth_ids h)))) as Hsz.
  rewrite length_take in Hsz. destruct Hvalid.
  unfold is_u32 in *. lia.
Qed.

Lemma query_loop_ok n :
  forall i total,
    0 <= i ->
    i + Z.of_nat n <= num_queries ->
    query_loop n ground_truth_dims result_dims recall_at i total h
    = Ok (total
          + foldr Z.add 0
              (map (matched h ground_truth_dims result_dims recall_at)
                   (seqZ i (Z.of_nat n))),
          h).
Proof.
  induction n as [|n IH]; intros i total Hi Hn.
  - simpl. unfold mret, M_ret, ret. rewrite Z.add_0_r. reflexivity.
  - cbn [query_loop].
    rewrite (bind_ok _ _ _ _ _ (query_recall_ok i ltac:(lia))).
    rewrite IH by lia. rewrite (seqZ_cons i) by lia. cbn [map foldr].
    replace (Z.pred (Z.of_nat (S n))) with (Z.of_nat n) by lia.
    replace (Z.succ i) with (i + 1) by lia.
    f_equal. f_equal. lia.
Qed.

Lemma calculate_recall_ok :
  calculate_recall num_queries ground_truth_dims result_dims recall_at h
  = Ok (recall_value
          (RecallSpec.total_matched h num_queries ground_truth_dims
             result_dims recall_at)
          num_queries recall_at,
        h).
Proof.
  pose proof Hvalid as [Hnq Hgd Hrd Hk1 Hkg Hkr Hids Hdists Hres].
  unfold calculate_recall, CalculateRecall.total_matched.
  erewrite bind_ok; [|apply query_loop_ok; unfold is_u32 in *; lia].
  rewrite Z2Nat.id by (unfold is_u32 in *; lia). reflexivity.
Qed.

End Queries.

(** ** Comparison of distances *)



(** ** The ground-truth set *)

Section GroundTruthSet.
Import CalculateRecall RecallSpec.

Variables (h : heap) (d : list spec_float).
Variables (num_queries ground_truth_dims result_dims recall_at i : Z).
Hypothesis Hvalid :
  valid_input h num_queries ground_truth_dims result_dims recall_at.
Hypothesis Hdists : ground_truth_dists h = Some d.
Hypothesis Hi : 0 <= i < num_queries.




End GroundTruthSet.

(** ** The recall evaluator: claims *)

Section RecallClaims.
Import CalculateRecall RecallSpec.


(** C3.  With distances given, the scan starts at column [recall_at - 1]
    and stops at the width of the ground-truth row at the latest; the
    ground-truth set is made of the ids before the stop, at most
    [ground_truth_dims] of them.  When the ties run to the end of the row,
    the set is the whole row and no more, whatever follows the row in the
    buffer, and the query is scored against that set. *)
Theorem tie_scan_stops_at_row_end
    (h : heap) (d : list spec_float)
    (num_queries ground_truth_dims result_dims recall_at i : Z) :
  valid_input h num_queries ground_truth_dims result_dims recall_at ->
  ground_truth_dists h = Some d ->
  0 <= i < num_queries ->
  exists tb gt,
    value (tie_break ground_truth_dims recall_at i h) = Ok tb
    /\ recall_at - 1 <= tb <= ground_truth_dims
    /\ (forall j, recall_at - 1 <= j < tb ->
                  tied d ground_truth_dims i j (recall_at - 1) = true)
    /\ value (ground_truth_set ground_truth_dims recall_at i h) = Ok gt
    /\ gt = list_to_set
              (take (Z.to_nat tb)
                 (drop (Z.to_nat (ground_truth_dims * i))
                    (ground_truth_ids h)))
    /\ Z.of_nat (size gt) <= ground_truth_dims
    /\ value (query_recall ground_truth_dims result_dims recall_at i h)
       = Ok (Z.of_nat (size (gt ∩ res_set h result_dims recall_at i)))
    /\ ((forall j, recall_at - 1 <= j < ground_truth_dims ->
                   tied d ground_truth_dims i j (recall_at - 1) = true) ->
        tb = ground_truth_dims).
Proof.
  intros Hvalid Hd Hi.
  destruct (tie_break_present h _ _ _ _ Hvalid d i Hd Hi)
    as (tb & Run & Htb & Hties & Hstop).
  pose proof Hvalid as [Hnq Hgd Hrd Hk1 Hkg Hkr Hids Hdists Hres].
  pose proof (ground_truth_set_ok h _ _ _ _ Hvalid i tb Hi Run ltac:(lia))
    as Hgt.
  eexists tb, _. split; [rewrite Run; reflexivity|].
  split; [exact Htb|]. split; [exact Hties|].
  split; [rewrite Hgt; reflexivity|]. split; [reflexivity|]. split.
  - match goal with
    | |- context [ size (list_to_set ?l) ] =>
        pose proof (size_list_to_set_le l) as Hsz
    end.
    rewrite length_take in Hsz. lia.
  - split.
    + rewrite (query_recall_ok h _ _ _ _ Hvalid i Hi). simpl value.
      unfold matched. rewrite Hgt. reflexivity.
    + intros Hall. destruct (Z.eq_dec tb ground_truth_dims) as [E|Hne];
        [exact E|exfalso].
      rewrite Hall in Hstop by lia. specialize (Hstop ltac:(lia)).
      discriminate.
Qed.

(** C7.  Without distances (the distance pointer is null), [tie_breaker]
    is [recall_at] and the ground-truth set of a query is made of the first
    [recall_at] ids of its row. *)
Theorem no_distances_first_recall_at_ids
    (h : heap) (num_queries ground_truth_dims result_dims recall_at i : Z) :
  valid_input h num_queries ground_truth_dims result_dims recall_at ->
  ground_truth_dists h = None ->
  0 <= i < num_queries ->
  value (tie_break ground_truth_dims recall_at i h) = Ok recall_at
  /\ value (ground_truth_set ground_truth_dims recall_at i h)
     = Ok (list_to_set
             (take (Z.to_nat recall_at)
                (drop (Z.to_nat (ground_truth_dims * i))
                   (ground_truth_ids h)))).
Proof.
  intros Hvalid Hnone Hi.
  pose proof (tie_break_absent h ground_truth_dims recall_at i Hnone) as Run.
  pose proof Hvalid as [Hnq Hgd Hrd Hk1 Hkg Hkr Hids Hdists Hres].
  split; [rewrite Run; reflexivity|].
  rewrite (ground_truth_set_ok h _ _ _ _ Hvalid i recall_at Hi Run)
    by lia.
  reflexivity.
Qed.

(** C10.  Under the bounds of [valid_input], [calculate_recall] performs
    no access outside its buffers: it ends normally, on every query as on
    the whole; and [recall_at - 1], which wraps to [2^32 - 1] for
    [recall_at = 0], is a column of the ground-truth row. *)
Theorem calculate_recall_in_bounds
    (h : heap) (num_queries ground_truth_dims result_dims recall_at : Z) :
  valid_input h num_queries ground_truth_dims result_dims recall_at ->
  (exists v,
     calculate_recall num_queries ground_truth_dims result_dims recall_at h
     = Ok (v, h))
  /\ (forall i, 0 <= i < num_queries ->
        exists c,
          query_recall ground_truth_dims result_dims recall_at i h
          = Ok (c, h))
  /\ u32 (recall_at - 1) = recall_at - 1
  /\ 0 <= recall_at - 1 < ground_truth_dims
  /\ u32 (0 - 1) = 2 ^ 32 - 1.
Proof.
  intros Hvalid. split; [|split].
  - eexists. apply calculate_recall_ok. exact Hvalid.
  - intros i Hi. eexists. apply (query_recall_ok h _ _ _ _ Hvalid i Hi).
  - destruct (pivot_in_row h _ _ _ _ Hvalid) as [Hu Hp].
    split; [exact Hu|]. split; [exact Hp|]. reflexivity.
Qed.


End RecallClaims.

(** ** The evaluator only reads *)

Section ReadsOnly.
Import CalculateRecall.

Lemma reads_only_gtd_not_null : reads_only gtd_not_null.
Proof. intros h a h'. unfold gtd_not_null. congruence. Qed.

Lemma reads_only_tie_loop fuel ground_truth_dims base pivot :
  forall tb, reads_only (tie_loop fuel ground_truth_dims base pivot tb).
Proof.
  induction fuel as [|fuel IH]; intros tb; simpl.
  - intros h a h'. discriminate.
  - destruct (tb <? ground_truth_dims); [|apply reads_only_ret].
    apply reads_only_bind; [apply reads_only_load|]. intros a.
    apply reads_only_bind; [apply reads_only_load|]. intros b.
    destruct (SFeqb a b); [apply IH|apply reads_only_ret].
Qed.

Lemma reads_only_tie_break ground_truth_dims recall_at i :
  reads_only (tie_break ground_truth_dims recall_at i).
Proof.
  apply reads_only_bind; [apply reads_only_gtd_not_null|].
  intros []; [apply reads_only_tie_loop|apply reads_only_ret].
Qed.

Lemma reads_only_query_recall ground_truth_dims result_dims recall_at i :
  reads_only (query_recall ground_truth_dims result_dims recall_at i).
Proof.
  apply reads_only_bind.
  - apply reads_only_bind; [apply reads_only_tie_break|].
    intros tb. apply reads_only_insert_range. intros j.
    apply reads_only_load.
  - intros gt. apply reads_only_bind; [|intros res; apply reads_only_ret].
    apply reads_only_insert_range. intros j. apply reads_only_load.
Qed.

Lemma reads_only_query_loop n ground_truth_dims result_dims recall_at :
  forall i total,
    reads_only
      (query_loop n ground_truth_dims result_dims recall_at i total).
Proof.
  induction n as [|n IH]; intros i total; simpl.
  - apply reads_only_ret.
  - apply reads_only_bind; [apply reads_only_query_recall|].
    intros c. apply IH.
Qed.

Lemma reads_only_calculate_recall
    num_queries ground_truth_dims result_dims recall_at :
  reads_only
    (calculate_recall num_queries ground_truth_dims result_dims recall_at).
Proof.
  apply reads_only_bind; [apply reads_only_query_loop|].
  intros total. apply reads_only_ret.
Qed.

(** C8.  A call of [calculate_recall] that returns leaves the three
    buffers as it found them, and a second call with the same arguments,
    run on the memory the first one left, returns the same value. *)
Theorem calculate_recall_pure
    (h h' : heap) (v : double)
    (num_queries ground_truth_dims result_dims recall_at : Z) :
  calculate_recall num_queries ground_truth_dims result_dims recall_at h
  = Ok (v, h') ->
  ground_truth_ids h' = ground_truth_ids h
  /\ ground_truth_dists h' = ground_truth_dists h
  /\ results h' = results h
  /\ calculate_recall num_queries ground_truth_dims result_dims recall_at h'
     = Ok (v, h').
Proof.
  intros Run. pose proof (reads_only_calculate_recall _ _ _ _ _ _ _ Run) as ->.
  repeat split; try reflexivity. exact Run.
Qed.

End ReadsOnly.

(** ** The loop budget is never exhausted *)

Section Budget.
Import CalculateRecall.

Lemma within_budget_ret {S A} (a : A) : within_budget (mret a : M S A).
Proof. intros h. discriminate. Qed.

Lemma within_budget_bind {S A B} (m : M S A) (k : A -> M S B) :
  within_budget m -> (forall a, within_budget (k a)) ->
  within_budget (m ≫= k).
Proof.
  intros Hm Hk h. unfold mbind, M_bind, bind.
  specialize (Hm h). destruct (m h) as [[a h1]| |];
    [apply Hk|discriminate|contradiction].
Qed.

Lemma within_budget_load {S A} (buf : S -> option (list A)) i :
  within_budget (load buf i).
Proof.
  intros h. unfold load. destruct (buf h) as [l|]; [|discriminate].
  destruct (index l i); discriminate.
Qed.

Lemma within_budget_insert_range {S} (rd : Z -> M S Z) n :
  (forall j, within_budget (rd j)) ->
  forall first s, within_budget (insert_range rd first n s).
Proof.
  intros Hrd. induction n as [|n IH]; intros first s; simpl.
  - apply within_budget_ret.
  - apply within_budget_bind; [apply Hrd|]. intros v. apply IH.
Qed.

Lemma within_budget_tie_loop ground_truth_dims base pivot fuel :
  is_u32 ground_truth_dims ->
  forall tb,
    0 <= tb ->
    (Z.to_nat (ground_truth_dims - tb) < fuel)%nat ->
    within_budget (tie_loop fuel ground_truth_dims base pivot tb).
Proof.
  intros Hgd. induction fuel as [|fuel IH]; intros tb Htb Hfuel; [lia|].
  simpl. destruct (Z.ltb_spec tb ground_truth_dims) as [Hlt|Hge];
    [|apply within_budget_ret].
  apply within_budget_bind; [apply within_budget_load|]. intros a.
  apply within_budget_bind; [apply within_budget_load|]. intros b.
  destruct (SFeqb a b); [|apply within_budget_ret].
  rewrite u64_small by (unfold is_u32 in Hgd; lia).
  apply IH; lia.
Qed.

Lemma within_budget_tie_break ground_truth_dims recall_at i :
  is_u32 ground_truth_dims ->
  within_budget (tie_break ground_truth_dims recall_at i).
Proof.
  intros Hgd. apply within_budget_bind; [intros h; discriminate|].
  intros []; [|apply within_budget_ret].
  assert (0 <= u32 (recall_at - 1)) as Hp.
  { unfold u32. apply Z.mod_pos_bound. reflexivity. }
  apply within_budget_tie_loop; [exact Hgd|exact Hp|lia].
Qed.

Lemma within_budget_query_loop n ground_truth_dims result_dims recall_at :
  is_u32 ground_truth_dims ->
  forall i total,
    within_budget
      (query_loop n ground_truth_dims result_dims recall_at i total).
Proof.
  intros Hgd. induction n as [|n IH]; intros i total; simpl.
  - apply within_budget_ret.
  - apply within_budget_bind; [|intros c; apply IH].
    apply within_budget_bind.
    + apply within_budget_bind; [apply within_budget_tie_break, Hgd|].
      intros tb. apply within_budget_insert_range. intros j.
      apply within_budget_load.
    + intros gt. apply within_budget_bind;
        [|intros res; apply within_budget_ret].
      apply within_budget_insert_range. intros j. apply within_budget_load.
Qed.

(** Whatever the buffers hold, [calculate_recall] ends with a value or
    with an access out of bounds: the budget given to the scan suffices. *)
Lemma calculate_recall_within_budget
    num_queries ground_truth_dims result_dims recall_at :
  is_u32 ground_truth_dims ->
  within_budget
    (calculate_recall num_queries ground_truth_dims result_dims recall_at).
Proof.
  intros Hgd. apply within_budget_bind;
    [apply within_budget_query_loop, Hgd|].
  intros total. apply within_budget_ret.
Qed.

End Budget.

(** ** The numpy variant against the vector variant *)

Section Simulation.
Import Variants.















End Simulation.

(** ** Batch search and the thread count *)

Section BatchSearchFacts.
Import Omp BatchSearch.

(** [batch_search] hands its [num_threads] to the runtime before it opens
    the parallel region. *)
Lemma batch_search_team num_queries num_threads rt :
  0 < num_threads ->
  team (snd (batch_search num_queries num_threads rt)) = num_threads.
Proof.
  intros Hpos. unfold batch_search, omp_parallel_for, omp_set_num_threads.
  simpl. destruct (Z.ltb_spec 0 num_threads); [reflexivity|lia].
Qed.

(** C4.  [batch_search_numpy_input] never reads its [num_threads]: its
    parallel region runs with whatever thread count the runtime holds.
    With the runtime at one thread and eight threads asked for, it runs on
    one, where [batch_search] runs on eight. *)
Theorem batch_search_numpy_input_ignores_num_threads :
  (forall num_queries num_threads rt,
     team (snd (batch_search_numpy_input num_queries num_threads rt))
     = nthreads_var rt)
  /\ team (snd (batch_search_numpy_input 100 8 (Runtime 1))) = 1
  /\ team (snd (batch_search 100 8 (Runtime 1))) = 8.
Proof. repeat split. Qed.

End BatchSearchFacts.

(** ** Loading the index *)

Section LoadIndexFacts.
Import LoadIndex.

Variable PQFlashIndex : Type.
Variable load : Z -> string -> string -> PQFlashIndex -> PQFlashIndex * Z.
Variable cache_bfs_levels : Z -> PQFlashIndex -> PQFlashIndex * list Z.

(** A failed load is reported as it is, and nothing else is called. *)
Lemma load_index_failed self index_path_prefix num_threads self1 status :
  load num_threads index_path_prefix
    (String.append index_path_prefix "_disk.index") self
  = (self1, status) ->
  status <> 0 ->
  load_index PQFlashIndex load cache_bfs_levels self index_path_prefix
    num_threads
  = (self1,
     [CallLoad num_threads index_path_prefix
        (String.append index_path_prefix "_disk.index");
      PrintLoadFailed],
     status).
Proof.
  intros Hload Hstatus. unfold load_index. rewrite Hload.
  destruct (Z.eqb_spec status 0); [contradiction|reflexivity].
Qed.

(** C5.  When the load of the wrapped index returns 0, [load_index] calls
    [cache_bfs_levels] once, with a budget of 1000 nodes, on the index the
    load left, and returns 0. *)
Theorem load_index_warms_cache
    (self self1 : PQFlashIndex) (index_path_prefix : string)
    (num_threads : Z) :
  load num_threads index_path_prefix
    (String.append index_path_prefix "_disk.index") self
  = (self1, 0) ->
  exists self2 node_list,
    cache_bfs_levels 1000 self1 = (self2, node_list)
    /\ load_index PQFlashIndex load cache_bfs_levels self index_path_prefix
         num_threads
       = (self2,
          [CallLoad num_threads index_path_prefix
             (String.append index_path_prefix "_disk.index");
           CallCacheBfsLevels 1000;
           PrintLoaded (length node_list)],
          0).
Proof.
  intros Hload. destruct (cache_bfs_levels 1000 self1) as [self2 nodes] eqn:E.
  exists self2, nodes. split; [reflexivity|].
  unfold load_index. rewrite Hload. simpl. rewrite E. reflexivity.
Qed.

End LoadIndexFacts.

Section LoadFailure.
Import LoadIndex PQFlashIndexSpec.

Lemma failed_load_unloaded num_threads pq_path index_path x x1 status :
  load num_threads pq_path index_path x = (x1, status) ->
  status <> 0 ->
  queryable x1 = false /\ cache_set x1 = cache_set x.
Proof.
  unfold load. intros Hload Hstatus.
  destruct (storage x pq_path), (storage x index_path);
    injection Hload as <- <-; try contradiction; split; reflexivity.
Qed.

(** C6.  When the load of the wrapped index fails, [load_index] returns the
    load's non-zero status, makes no call to [cache_bfs_levels], and leaves
    the index not queryable, its cache set untouched. *)
Theorem load_index_failure
    (x x1 : PQFlashIndex) (index_path_prefix : string)
    (num_threads status : Z) :
  load num_threads index_path_prefix
    (String.append index_path_prefix "_disk.index") x
  = (x1, status) ->
  status <> 0 ->
  exists trace,
    PQFlashIndexSpec.load_index x index_path_prefix num_threads
    = (x1, trace, status)
    /\ existsb is_cache_call trace = false
    /\ queryable x1 = false
    /\ cache_set x1 = cache_set x.
Proof.
  intros Hload Hstatus. eexists. split.
  - apply load_index_failed; eassumption.
  - split; [reflexivity|].
    eapply failed_load_unloaded; eassumption.
Qed.

End LoadFailure.

(** ** The claims on the sample inputs *)

Section Witnesses.
Import CalculateRecall RecallSpec Samples.

Lemma valid_tied_pair : valid_input tied_pair 1 4 1 1.
Proof.
  constructor; unfold is_u32; simpl; try lia.
  intros d [= <-]. simpl. lia.
Defined.

Lemma valid_long_run : valid_input long_run 2 2 1 1.
Proof.
  constructor; unfold is_u32; simpl; try lia.
  intros d [= <-]. simpl. lia.
Defined.

Lemma valid_no_dists : valid_input no_dists 2 2 1 1.
Proof.
  constructor; unfold is_u32; simpl; try lia.
  intros d [=].
Defined.




Lemma tie_scan_stops_at_row_end_witness :
  value (tie_break 2 1 0 long_run) = Ok 2
  /\ value (ground_truth_set 2 1 0 long_run) = Ok {[ 10; 11 ]}.
Proof.
  destruct (tie_scan_stops_at_row_end long_run [f1; f1; f1; f1] 2 2 1 1 0
              valid_long_run eq_refl ltac:(lia))
    as (tb & gt & Htb & _ & _ & Hgt & Heq & _ & _ & Hend).
  assert (tb = 2) as ->.
  { apply Hend. intros j Hj.
    assert (j = 0 \/ j = 1) as [-> | ->] by lia; reflexivity. }
  split; [exact Htb|]. rewrite Hgt, Heq. reflexivity.
Defined.

Lemma no_distances_first_recall_at_ids_witness :
  value (tie_break 2 1 1 no_dists) = Ok 1
  /\ value (ground_truth_set 2 1 1 no_dists) = Ok (list_to_set [12]).
Proof.
  apply (no_distances_first_recall_at_ids no_dists 2 2 1 1 1 valid_no_dists);
    [reflexivity|lia].
Defined.

Lemma calculate_recall_pure_witness :
  ground_truth_ids tied_pair = [10; 11; 12; 13]
  /\ ground_truth_dists tied_pair = Some [f1; f1; f2; f3]
  /\ results tied_pair = [11]
  /\ calculate_recall 1 4 1 1 tied_pair = Ok (DFin 100, tied_pair).
Proof.
  apply (calculate_recall_pure tied_pair tied_pair (DFin 100) 1 4 1 1).
  vm_compute. reflexivity.
Defined.


Lemma calculate_recall_in_bounds_witness :
  (exists v, calculate_recall 1 4 1 1 tied_pair = Ok (v, tied_pair))
  /\ (forall i, 0 <= i < 1 ->
        exists c, query_recall 4 1 1 i tied_pair = Ok (c, tied_pair))
  /\ u32 (1 - 1) = 1 - 1
  /\ 0 <= 1 - 1 < 4
  /\ u32 (0 - 1) = 2 ^ 32 - 1.
Proof.
  apply (calculate_recall_in_bounds tied_pair 1 4 1 1 valid_tied_pair).
Defined.

Lemma load_index_warms_cache_witness :
  exists self2 node_list,
    PQFlashIndexSpec.cache_bfs_levels 1000
      (PQFlashIndexSpec.Index PQFlashIndexSpec.Loaded
         (fun _ => PQFlashIndexSpec.WellFormed) [0; 1; 2] [])
    = (self2, node_list)
    /\ PQFlashIndexSpec.load_index good_index "sift" 4
       = (self2,
          [LoadIndex.CallLoad 4 "sift" "sift_disk.index";
           LoadIndex.CallCacheBfsLevels 1000;
           LoadIndex.PrintLoaded (length node_list)],
          0).
Proof.
  apply (load_index_warms_cache PQFlashIndexSpec.PQFlashIndex
           PQFlashIndexSpec.load PQFlashIndexSpec.cache_bfs_levels
           good_index _ "sift" 4).
  reflexivity.
Defined.

Lemma load_index_failure_witness :
  exists trace,
    PQFlashIndexSpec.load_index missing_index "sift" 4
    = (missing_index, trace, -1)
    /\ existsb LoadIndex.is_cache_call trace = false
    /\ PQFlashIndexSpec.queryable missing_index = false
    /\ PQFlashIndexSpec.cache_set missing_index = [].
Proof.
  apply (load_index_failure missing_index missing_index "sift" 4 (-1));
    [reflexivity|lia].
Defined.

End Witnesses.

(** * More on the recall evaluator *)

(** ** A range insert that leaves its buffer *)

Section RangeOutOfBounds.
Context {S : Type}.

Lemma load_out_of_bounds {A} (buf : S -> option (list A)) i h l :
  buf h = Some l -> Z.of_nat (length l) <= i -> load buf i h = OutOfBounds.
Proof.
  intros Hb Hi. unfold load, index. rewrite Hb.
  destruct (Z.ltb_spec i 0); [reflexivity|].
  rewrite lookup_ge_None_2 by lia. reflexivity.
Qed.

(** A range that starts inside the buffer and ends past it cannot be
    inserted. *)
Lemma insert_range_out_of_bounds (buf : S -> option (list Z)) h l n :
  buf h = Some l ->
  forall first s,
    0 <= first <= Z.of_nat (length l) ->
    Z.of_nat (length l) < first + Z.of_nat n ->
    insert_range (load buf) first n s h = OutOfBounds.
Proof.
  intros Hb. induction n as [|n IH]; intros first s Hf Hn; [lia|].
  cbn [insert_range].
  destruct (Z.eq_dec first (Z.of_nat (length l))) as [E|Hne].
  - unfold mbind, M_bind, bind.
    rewrite (load_out_of_bounds buf first h l Hb) by lia. reflexivity.
  - destruct (index_in_range l first) as [v Hv]; [lia|].
    rewrite (bind_ok _ _ _ _ _ (load_ok buf first h l v Hb Hv)).
    apply IH; lia.
Qed.

End RangeOutOfBounds.

(** ** Bounds on the matched ids *)

Section RecallRange.
Import CalculateRecall RecallSpec.






End RecallRange.

(** ** Degenerate arguments *)

Section Degenerate.
Import CalculateRecall RecallSpec.

(** With no query at all, [calculate_recall] touches no buffer and
    returns NaN (the quotient [0.0 / 0]), whatever the other arguments. *)
Lemma no_queries_nan
    (h : heap) (ground_truth_dims result_dims recall_at : Z) :
  calculate_recall 0 ground_truth_dims result_dims recall_at h
  = Ok (DNaN, h).
Proof. reflexivity. Qed.

Lemma count_found_empty (res : gset Z) : count_found ∅ res = 0.
Proof. unfold count_found. rewrite elements_empty. reflexivity. Qed.

Lemma query_recall_zero h ground_truth_dims result_dims i :
  ground_truth_dists h = None ->
  query_recall ground_truth_dims result_dims 0 i h = Ok (0, h).
Proof.
  intros Hnone.
  assert (ground_truth_set ground_truth_dims 0 i h = Ok (∅, h)) as Hgt.
  { unfold ground_truth_set.
    rewrite (bind_ok _ _ _ _ _ (tie_break_absent h _ 0 i Hnone)).
    reflexivity. }
  unfold query_recall. rewrite (bind_ok _ _ _ _ _ Hgt).
  unfold result_set. change (Z.to_nat 0) with 0%nat. cbn [insert_range].
  unfold mbind, M_bind, bind, mret, M_ret, ret.
  rewrite count_found_empty. reflexivity.
Qed.

Lemma query_loop_zero h ground_truth_dims result_dims n :
  ground_truth_dists h = None ->
  forall i total,
    query_loop n ground_truth_dims result_dims 0 i total h = Ok (total, h).
Proof.
  intros Hnone. induction n as [|n IH]; intros i total; [reflexivity|].
  cbn [query_loop].
  rewrite (bind_ok _ _ _ _ _ (query_recall_zero h _ _ i Hnone)).
  rewrite IH, Z.add_0_r. reflexivity.
Qed.

(** X2.  With [recall_at = 0] and no distances, no buffer is touched
    either, and the value is NaN again: [100.0 / 0] is infinite and is
    multiplied by a zero count. *)
Theorem zero_recall_at_nan
    (h : heap) (num_queries ground_truth_dims result_dims : Z) :
  ground_truth_dists h = None ->
  1 <= num_queries ->
  calculate_recall num_queries ground_truth_dims result_dims 0 h
  = Ok (DNaN, h).
Proof.
  intros Hnone Hnq. unfold calculate_recall, CalculateRecall.total_matched.
  rewrite (bind_ok _ _ _ _ _
             (query_loop_zero h _ _ (Z.to_nat num_queries) Hnone 0 0)).
  unfold mret, M_ret, ret, recall_value, double_of_Z, ddiv, dmul, Qzero.
  destruct (Qeq_bool (inject_Z num_queries) 0) eqn:E.
  { apply Qeq_bool_eq in E. unfold Qeq in E. simpl in E. lia. }
  change (Qeq_bool (inject_Z 0) 0) with true.
  change (Qeq_bool 100 0) with false. cbv iota.
  destruct (Qeq_bool (inject_Z 0 / inject_Z num_queries) 0) eqn:E0;
    [reflexivity|].
  apply Qeq_bool_neq in E0. exfalso. apply E0.
  unfold Qdiv. apply Qmult_0_l.
Qed.

Lemma tie_break_wrapped h d ground_truth_dims i :
  ground_truth_dists h = Some d ->
  is_u32 ground_truth_dims ->
  tie_break ground_truth_dims 0 i h = Ok (u32 (0 - 1), h).
Proof.
  intros Hd Hgd. unfold tie_break.
  erewrite bind_ok by reflexivity. rewrite Hd.
  rewrite bool_decide_true by discriminate.
  assert (u32 (0 - 1) = 2 ^ 32 - 1) as Hw by reflexivity.
  cbn [tie_loop].
  destruct (Z.ltb_spec (u32 (0 - 1)) ground_truth_dims) as [Hlt|Hge];
    [unfold is_u32 in Hgd; lia|reflexivity].
Qed.

(** X3.  With [recall_at = 0] and distances given, [recall_at - 1] wraps
    to [2^32 - 1]: the scan does not start, and the first query asks for
    [2^32 - 1] ground-truth ids.  Unless the id buffer is that long, the
    call reads past its end. *)
Theorem wrapped_recall_at_out_of_bounds
    (h : heap) (d : list spec_float)
    (num_queries ground_truth_dims result_dims : Z) :
  ground_truth_dists h = Some d ->
  is_u32 ground_truth_dims ->
  1 <= num_queries ->
  Z.of_nat (length (ground_truth_ids h)) < 2 ^ 32 - 1 ->
  calculate_recall num_queries ground_truth_dims result_dims 0 h
  = OutOfBounds.
Proof.
  intros Hd Hgd Hnq Hlen.
  assert (u32 (0 - 1) = 2 ^ 32 - 1) as Hw by reflexivity.
  unfold calculate_recall, CalculateRecall.total_matched.
  destruct (Z.to_nat num_queries) as [|n] eqn:En; [lia|].
  cbn [query_loop]. unfold query_recall, ground_truth_set.
  unfold mbind, M_bind, bind.
  rewrite (tie_break_wrapped h d ground_truth_dims 0 Hd Hgd).
  rewrite Z.mul_0_r. change (u64 0) with 0. unfold read_gti.
  rewrite (insert_range_out_of_bounds _ h (ground_truth_ids h));
    [reflexivity|reflexivity|lia|].
  rewrite Z2Nat.id by lia. lia.
Qed.

End Degenerate.

(** ** NaN distances and perfect results *)

Section Scores.
Import CalculateRecall RecallSpec.

Variables (h : heap) (num_queries ground_truth_dims result_dims recall_at : Z).
Hypothesis Hvalid :
  valid_input h num_queries ground_truth_dims result_dims recall_at.

(** The scan passes the pivot exactly when the pivot equals itself. *)
Lemma tie_break_past_pivot d i tb :
  ground_truth_dists h = Some d ->
  0 <= i < num_queries ->
  tie_break ground_truth_dims recall_at i h = Ok (tb, h) ->
  (tied d ground_truth_dims i (recall_at - 1) (recall_at - 1) = true ->
   recall_at <= tb)
  /\ (tied d ground_truth_dims i (recall_at - 1) (recall_at - 1) = false ->
      tb = recall_at - 1).
Proof.
  intros Hd Hi Run.
  destruct (tie_break_present h _ _ _ _ Hvalid d i Hd Hi)
    as (tb' & Run' & Htb & Hties & Hstop).
  rewrite Run in Run'. injection Run' as <-.
  pose proof Hvalid as [_ _ _ Hk1 Hkg _ _ _ _].
  split; intros Hself.
  - destruct (Z.eq_dec tb (recall_at - 1)) as [->|Hne]; [|lia].
    rewrite Hstop in Hself by lia. discriminate.
  - destruct (Z.eq_dec tb (recall_at - 1)) as [E|Hne]; [exact E|].
    rewrite Hties in Hself by lia. discriminate.
Qed.

(** X4.  A NaN distance at rank [recall_at] differs from itself, so the
    scan stops at once: the ground-truth set of that query is cut down to
    its first [recall_at - 1] ids. *)
Theorem nan_pivot_shrinks_ground_truth (d : list spec_float) (i : Z) :
  ground_truth_dists h = Some d ->
  0 <= i < num_queries ->
  index d (ground_truth_dims * i + (recall_at - 1)) = Some S754_nan ->
  value (tie_break ground_truth_dims recall_at i h) = Ok (recall_at - 1)
  /\ value (ground_truth_set ground_truth_dims recall_at i h)
     = Ok (list_to_set
             (take (Z.to_nat (recall_at - 1))
                (drop (Z.to_nat (ground_truth_dims * i))
                   (ground_truth_ids h)))).
Proof.
  intros Hd Hi Hnan.
  destruct (tie_break_in_row h _ _ _ _ Hvalid i Hi) as (tb & Run & Htb).
  destruct (tie_break_past_pivot d i tb Hd Hi Run) as [_ Hstop].
  assert (tb = recall_at - 1) as ->.
  { apply Hstop. unfold tied. rewrite Hnan. reflexivity. }
  rewrite Run, (ground_truth_set_ok h _ _ _ _ Hvalid i _ Hi Run Htb).
  split; reflexivity.
Qed.




End Scores.

(** ** The numpy variant on a valid input *)

Section NumpyVariant.
Import Variants.






End NumpyVariant.

(** * The search methods *)

(** ** Writing into a vector *)

Section Overwrite.
Import Search.
Context {A : Type}.
Implicit Types (l w : list A).

Lemma length_overwrite l first w :
  length (overwrite l first w) = length l.
Proof. unfold overwrite. apply length_imap. Qed.

(** Inside the slot the written values, outside it the old ones. *)
Lemma overwrite_lookup_in l first w (p : nat) :
  first <= Z.of_nat p < first + Z.of_nat (length w) ->
  (p < length l)%nat ->
  overwrite l first w !! p = w !! Z.to_nat (Z.of_nat p - first).
Proof.
  intros Hp Hl. unfold overwrite. rewrite list_lookup_imap.
  destruct (lookup_lt_is_Some_2 l p Hl) as [x ->]. simpl.
  rewrite decide_True by exact Hp.
  destruct (lookup_lt_is_Some_2 w (Z.to_nat (Z.of_nat p - first)))
    as [y ->]; [lia|reflexivity].
Qed.

Lemma overwrite_lookup_out l first w (p : nat) :
  ~ (first <= Z.of_nat p < first + Z.of_nat (length w)) ->
  overwrite l first w !! p = l !! p.
Proof.
  intros Hp. unfold overwrite. rewrite list_lookup_imap.
  destruct (l !! p) as [x|]; [|reflexivity]. simpl.
  rewrite decide_False by exact Hp. reflexivity.
Qed.

Lemma overwrite_nil l first : overwrite l first [] = l.
Proof.
  apply list_eq. intros p. apply overwrite_lookup_out. simpl. lia.
Qed.


Lemma store_ok l i x :
  0 <= i < Z.of_nat (length l) -> store l i x = Ok (<[Z.to_nat i := x]> l).
Proof.
  intros Hi. unfold store.
  destruct (Z.leb_spec 0 i); [|lia].
  destruct (Z.ltb_spec i (Z.of_nat (length l))); [reflexivity|lia].
Qed.

Lemma store_out_of_bounds l i x :
  Z.of_nat (length l) <= i -> store l i x = OutOfBounds.
Proof.
  intros Hi. unfold store.
  destruct (Z.ltb_spec i (Z.of_nat (length l))); [lia|].
  rewrite andb_false_r. reflexivity.
Qed.

Lemma overwrite_cons l first x w :
  0 <= first < Z.of_nat (length l) ->
  overwrite (<[Z.to_nat first := x]> l) (first + 1) w
  = overwrite l first (x :: w).
Proof.
  intros Hf. apply list_eq. intros p.
  destruct (decide (p < length l)%nat) as [Hp|Hp].
  2:{ rewrite !lookup_ge_None_2;
        rewrite ?length_overwrite, ?length_insert; try lia. reflexivity. }
  destruct (decide (Z.of_nat p = first)) as [E|Hne].
  - rewrite overwrite_lookup_out by lia.
    rewrite overwrite_lookup_in by (simpl; lia).
    replace (Z.to_nat (Z.of_nat p - first)) with 0%nat by lia.
    replace (Z.to_nat first) with p by lia.
    rewrite list_lookup_insert_eq by lia. reflexivity.
  - destruct (decide (first + 1 <= Z.of_nat p
                      < first + 1 + Z.of_nat (length w))) as [Hin|Hout].
    + rewrite !overwrite_lookup_in;
        rewrite ?length_insert; simpl; try lia.
      replace (Z.to_nat (Z.of_nat p - first))
        with (Datatypes.S (Z.to_nat (Z.of_nat p - (first + 1)))) by lia.
      reflexivity.
    + rewrite !overwrite_lookup_out by (simpl; lia).
      rewrite list_lookup_insert_ne by lia. reflexivity.
Qed.

(** Writes that fit are the overwriting of a slot. *)
Lemma store_range_ok w :
  forall l first,
    0 <= first ->
    first + Z.of_nat (length w) <= Z.of_nat (length l) ->
    store_range l first w = Ok (overwrite l first w).
Proof.
  induction w as [|x w IH]; intros l first Hf Hlen; simpl.
  - rewrite overwrite_nil. reflexivity.
  - simpl in Hlen. rewrite store_ok by lia. simpl.
    rewrite IH by (rewrite ?length_insert; lia).
    rewrite overwrite_cons by lia. reflexivity.
Qed.

(** Writes that do not fit leave the vector. *)
Lemma store_range_out_of_bounds w :
  forall l first,
    0 <= first ->
    w <> [] ->
    Z.of_nat (length l) < first + Z.of_nat (length w) ->
    store_range l first w = OutOfBounds.
Proof.
  induction w as [|x w IH]; intros l first Hf Hne Hlen; [contradiction|].
  simpl in *.
  destruct (Z_lt_ge_dec first (Z.of_nat (length l))) as [Hin|Hout].
  - rewrite store_ok by lia. simpl. apply IH.
    + lia.
    + intros ->. simpl in Hlen. lia.
    + rewrite length_insert. lia.
  - rewrite store_out_of_bounds by lia. reflexivity.
Qed.

End Overwrite.

(** ** One query into its slot *)

Section SearchSlot.
Import Search.

Lemma copy_ids_ok base u64_ids n :
  forall i ids,
    0 <= i -> 0 <= base ->
    i + Z.of_nat n <= Z.of_nat (length u64_ids) ->
    base + i + Z.of_nat n <= Z.of_nat (length ids) ->
    base + i + Z.of_nat n <= 2 ^ 64 ->
    copy_ids n i base u64_ids ids
    = Ok (overwrite ids (base + i)
            (map u32 (take n (drop (Z.to_nat i) u64_ids)))).
Proof.
  induction n as [|n IH]; intros i ids Hi Hb Hu Hids Hwrap.
  - simpl. rewrite overwrite_nil. reflexivity.
  - cbn [copy_ids].
    destruct (index_in_range u64_ids i) as [x Hx]; [lia|].
    rewrite Hx. rewrite u64_small by lia. rewrite store_ok by lia.
    simpl and_then. rewrite IH by (rewrite ?length_insert; lia).
    apply index_Some in Hx as [_ Hx].
    rewrite (drop_S _ _ _ Hx). cbn [take map].
    replace (Z.to_nat (i + 1)) with (Datatypes.S (Z.to_nat i)) by lia.
    replace (base + (i + 1)) with (base + i + 1) by lia.
    rewrite overwrite_cons by lia. reflexivity.
Qed.

(** What one call of the engine leaves in the two vectors, when its
    writes fit. *)
Lemma slot_filled (e : list Z * list spec_float) (slot knn : Z)
    (v : vectors) :
  0 <= slot -> 0 <= knn ->
  slot + knn <= 2 ^ 64 ->
  Z.of_nat (length (fst e)) <= knn ->
  slot + Z.of_nat (length (snd e)) <= Z.of_nat (length (dists v)) ->
  slot + knn <= Z.of_nat (length (ids v)) ->
  and_then (store_range (replicate (Z.to_nat knn) 0) 0 (fst e))
    (fun u64_ids =>
  and_then (store_range (dists v) slot (snd e))
    (fun dists' =>
  and_then (copy_ids (Z.to_nat knn) 0 slot u64_ids (ids v))
    (fun ids' => Ok (Vectors ids' dists'))))
  = Ok (fill_slot e slot knn v).
Proof.
  intros Hs Hk Hwrap He Hd Hi.
  rewrite store_range_ok by (rewrite ?length_replicate; lia). simpl and_then.
  rewrite store_range_ok by lia. simpl and_then.
  rewrite copy_ids_ok;
    rewrite ?length_overwrite, ?length_replicate; try lia.
  simpl and_then. unfold fill_slot. rewrite Z.add_0_r.
  change (Z.to_nat 0) with 0%nat. rewrite drop_0.
  rewrite take_ge by (rewrite length_overwrite, length_replicate; lia).
  reflexivity.
Qed.

Lemma length_fill_slot e slot knn v :
  length (ids (fill_slot e slot knn v)) = length (ids v)
  /\ length (dists (fill_slot e slot knn v)) = length (dists v).
Proof. unfold fill_slot. simpl. rewrite !length_overwrite. tauto. Qed.

(** After [grow] both vectors hold [knn * num_queries] elements at
    least, when they were of one length, and their old elements. *)
Lemma grow_facts knn num_queries v :
  0 <= knn * num_queries < 2 ^ 64 ->
  length (ids v) = length (dists v) ->
  length (ids (grow knn num_queries v))
  = length (dists (grow knn num_queries v))
  /\ Z.of_nat (length (ids (grow knn num_queries v)))
     = Z.max (Z.of_nat (length (ids v))) (knn * num_queries)
  /\ (forall p : nat,
        (p < length (ids v))%nat ->
        ids (grow knn num_queries v) !! p = ids v !! p
        /\ dists (grow knn num_queries v) !! p = dists v !! p).
Proof.
  intros Hn Hlen. unfold grow. rewrite u64_small by exact Hn.
  destruct (Z.ltb_spec (Z.of_nat (length (ids v))) (knn * num_queries))
    as [Hlt|Hge]; simpl.
  - unfold resize. rewrite !length_app, !length_take, !length_replicate.
    split; [lia|]. split; [lia|].
    intros p Hp. rewrite !take_ge by lia.
    rewrite !lookup_app_l by lia. tauto.
  - split; [exact Hlen|]. split; [lia|]. tauto.
Qed.

End SearchSlot.

(** ** [search] *)

Section SearchFacts.
Import Search.

Variable cached_beam_search :
  list spec_float -> Z -> Z -> Z -> Z -> bool -> list Z * list spec_float.

Lemma overwrite_all {A} (l w : list A) :
  length w = length l -> overwrite l 0 w = w.
Proof.
  intros Hlen. apply list_eq. intros p.
  destruct (decide (p < length l)%nat) as [Hp|Hp].
  - rewrite overwrite_lookup_in by lia. f_equal. lia.
  - rewrite !lookup_ge_None_2; rewrite ?length_overwrite; try lia.
    reflexivity.
Qed.

(** X7.  [search] on vectors of one length, for a query index below
    [num_queries] and an engine that writes [knn] ids and [knn] distances:
    every write is inside the vectors; afterwards both are as long as the
    longer of their old length and [knn * num_queries]; the slot of the
    query holds the ids found, cut down to 32 bits, and the distances found;
    every other old element is as it was. *)
Theorem search_fills_slot
    (query : list spec_float)
    (query_idx dim num_queries knn l_search beam_width : Z)
    (v : vectors) (found_ids : list Z) (found_dists : list spec_float) :
  cached_beam_search query (u64 (query_idx * dim)) knn l_search beam_width
    true
  = (found_ids, found_dists) ->
  Z.of_nat (length found_ids) = knn ->
  Z.of_nat (length found_dists) = knn ->
  0 <= query_idx < num_queries ->
  knn * num_queries < 2 ^ 64 ->
  length (ids v) = length (dists v) ->
  exists v',
    search cached_beam_search query query_idx dim num_queries knn l_search
      beam_width v
    = Ok v'
    /\ length (ids v') = length (dists v')
    /\ Z.of_nat (length (ids v'))
       = Z.max (Z.of_nat (length (ids v))) (knn * num_queries)
    /\ (forall j : nat,
          Z.of_nat j < knn ->
          ids v' !! (Z.to_nat (query_idx * knn) + j)%nat
          = u32 <$> found_ids !! j
          /\ dists v' !! (Z.to_nat (query_idx * knn) + j)%nat
             = found_dists !! j)
    /\ (forall p : nat,
          (p < length (ids v))%nat ->
          ~ (query_idx * knn <= Z.of_nat p < query_idx * knn + knn) ->
          ids v' !! p = ids v !! p /\ dists v' !! p = dists v !! p).
Proof.
  intros He Hfi Hfd Hq Hn Hlen.
  assert (0 <= knn) as Hk by lia.
  assert (0 <= query_idx * knn /\ query_idx * knn + knn <= knn * num_queries)
    as [Hs0 Hs1] by nia.
  destruct (grow_facts knn num_queries v ltac:(nia) Hlen)
    as (Hgl & Hgmax & Hgold).
  unfold search, search_slot. rewrite He.
  rewrite (u64_small (query_idx * knn)) by lia.
  pose proof (slot_filled (found_ids, found_dists) (query_idx * knn) knn
                (grow knn num_queries v)) as Hfill.
  cbn [fst snd] in Hfill. rewrite Hfill by lia. clear Hfill.
  eexists. split; [reflexivity|].
  destruct (length_fill_slot (found_ids, found_dists) (query_idx * knn) knn
              (grow knn num_queries v)) as [Li Ld].
  split; [lia|]. split; [lia|].
  unfold fill_slot. cbn [fst snd ids dists].
  rewrite overwrite_all by (rewrite length_replicate; lia).
  split.
  - intros j Hj. rewrite !overwrite_lookup_in;
      rewrite ?length_map; try lia.
    replace (Z.to_nat
               (Z.of_nat (Z.to_nat (query_idx * knn) + j) - query_idx * knn))
      with j by lia.
    rewrite list_lookup_fmap. tauto.
  - intros p Hp Hout. rewrite !overwrite_lookup_out;
      rewrite ?length_map; try lia.
    apply Hgold. exact Hp.
Qed.

(** X8.  The test that makes [search] resize looks at [ids] alone.  With
    [ids] long enough and [dists] too short for the slot of the query, the
    distances are written past the end of [dists]. *)
Theorem search_short_dists_out_of_bounds
    (query : list spec_float)
    (query_idx dim num_queries knn l_search beam_width : Z)
    (v : vectors) (found_ids : list Z) (found_dists : list spec_float) :
  cached_beam_search query (u64 (query_idx * dim)) knn l_search beam_width
    true
  = (found_ids, found_dists) ->
  Z.of_nat (length found_ids) <= knn ->
  found_dists <> [] ->
  0 <= query_idx * knn < 2 ^ 64 ->
  u64 (knn * num_queries) <= Z.of_nat (length (ids v)) ->
  Z.of_nat (length (dists v))
  < query_idx * knn + Z.of_nat (length found_dists) ->
  search cached_beam_search query query_idx dim num_queries knn l_search
    beam_width v
  = OutOfBounds.
Proof.
  intros He Hfi Hne Hs Hids Hdists.
  unfold search, search_slot, grow.
  destruct (Z.ltb_spec (Z.of_nat (length (ids v))) (u64 (knn * num_queries)));
    [lia|].
  rewrite He, (u64_small (query_idx * knn)) by lia.
  rewrite store_range_ok by (rewrite ?length_replicate; lia).
  simpl and_then.
  rewrite store_range_out_of_bounds by (assumption || lia).
  reflexivity.
Qed.

End SearchFacts.

(** ** [batch_search] *)

Section BatchFacts.
Import Search.

Variable cached_beam_search :
  list spec_float -> Z -> Z -> Z -> Z -> bool -> list Z * list spec_float.
Variables (queries : list spec_float).
Variables (dim num_queries knn l_search beam_width : Z).

(** The results of the engine for query [q] of the batch. *)
Let e (q : Z) : list Z * list spec_float :=
  cached_beam_search queries (u64 (q * dim)) knn l_search beam_width false.

Hypothesis Hknn : 0 <= knn.
Hypothesis Hsize : 0 <= knn * num_queries < 2 ^ 64.
Hypothesis Hengine :
  forall q, 0 <= q < num_queries ->
            Z.of_nat (length (fst (e q))) <= knn
            /\ Z.of_nat (length (snd (e q))) <= knn.

Lemma batch_iteration_ok q v :
  0 <= q < num_queries ->
  knn * num_queries <= Z.of_nat (length (ids v)) ->
  knn * num_queries <= Z.of_nat (length (dists v)) ->
  batch_iteration cached_beam_search queries dim knn l_search beam_width q v
  = Ok (fill_slot (e q) (q * knn) knn v).
Proof.
  intros Hq Hi Hd. destruct (Hengine q Hq) as [Hei Hed].
  assert (0 <= q * knn /\ q * knn + knn <= knn * num_queries)
    as [Hs0 Hs1] by nia.
  unfold batch_iteration. fold (e q).
  rewrite (u64_small (q * knn)) by lia.
  pose proof (slot_filled (e q) (q * knn) knn v) as Hfill.
  destruct (e q) as [found_ids found_dists]. cbn [fst snd] in *.
  apply Hfill; lia.
Qed.

Lemma run_iterations_ok order :
  forall v,
    Forall (fun q => 0 <= q < num_queries) order ->
    knn * num_queries <= Z.of_nat (length (ids v)) ->
    knn * num_queries <= Z.of_nat (length (dists v)) ->
    run_iterations
      (batch_iteration cached_beam_search queries dim knn l_search
         beam_width)
      order v
    = Ok (fill_slots e knn order v).
Proof.
  induction order as [|q order IH]; intros v Hall Hi Hd; [reflexivity|].
  apply Forall_cons in Hall as [Hq Hall].
  cbn [run_iterations]. rewrite batch_iteration_ok by assumption.
  simpl and_then.
  destruct (length_fill_slot (e q) (q * knn) knn v) as [Li Ld].
  rewrite IH by (assumption || lia). reflexivity.
Qed.


Lemma length_slot_ids q :
  Z.of_nat
    (length (map u32 (overwrite (replicate (Z.to_nat knn) 0) 0 (fst (e q)))))
  = knn.
Proof. rewrite length_map, length_overwrite, length_replicate. lia. Qed.



(** Outside the slots of [order] nothing changes. *)
Lemma fill_slots_lookup_out order (p : nat) :
  Forall (fun q => 0 <= q < num_queries) order ->
  Forall (fun q => ~ (q * knn <= Z.of_nat p < q * knn + knn)) order ->
  forall v,
    ids (fill_slots e knn order v) !! p = ids v !! p
    /\ dists (fill_slots e knn order v) !! p = dists v !! p.
Proof.
  unfold fill_slots.
  induction order as [|q order IH]; intros Hall Hout v; [tauto|].
  apply Forall_cons in Hall as [Hq Hall].
  apply Forall_cons in Hout as [Hp Hout].
  destruct (Hengine q Hq) as [_ Hd].
  simpl. destruct (IH Hall Hout (fill_slot (e q) (q * knn) knn v))
    as [-> ->].
  unfold fill_slot. cbn [ids dists].
  rewrite !overwrite_lookup_out; [tauto|lia|].
  rewrite length_slot_ids. exact Hp.
Qed.

(** Inside the slot of a query of [order], the results of that query. *)
Lemma fill_slots_lookup_in order q (j : nat) :
  Forall (fun q => 0 <= q < num_queries) order ->
  q ∈ order ->
  Z.of_nat j < knn ->
  forall v,
    knn * num_queries <= Z.of_nat (length (ids v)) ->
    knn * num_queries <= Z.of_nat (length (dists v)) ->
    ids (fill_slots e knn order v) !! (Z.to_nat (q * knn) + j)%nat
    = u32 <$> overwrite (replicate (Z.to_nat knn) 0) 0 (fst (e q)) !! j
    /\ (Z.of_nat j < Z.of_nat (length (snd (e q))) ->
        dists (fill_slots e knn order v) !! (Z.to_nat (q * knn) + j)%nat
        = snd (e q) !! j).
Proof.
  induction order as [|x order IH]; intros Hall Hin Hj v Hi Hd.
  - apply elem_of_nil in Hin. contradiction.
  - pose proof Hall as Hall'. apply Forall_cons in Hall' as [Hx Hrest].
    destruct (length_fill_slot (e x) (x * knn) knn v) as [Li Ld].
    destruct (decide (q ∈ order)) as [Hq|Hq].
    + apply (IH Hrest Hq Hj (fill_slot (e x) (x * knn) knn v)); lia.
    + apply elem_of_cons in Hin as [->|Hin]; [|contradiction].
      assert (0 <= x * knn /\ x * knn + knn <= knn * num_queries)
        as [Hs0 Hs1] by nia.
      change (fill_slots e knn (x :: order) v)
        with (fill_slots e knn order (fill_slot (e x) (x * knn) knn v)).
      destruct (fill_slots_lookup_out order (Z.to_nat (x * knn) + j)
                  Hrest) with (v := fill_slot (e x) (x * knn) knn v)
        as [-> ->].
      { rewrite Forall_forall in Hrest |- *. intros y Hy.
        specialize (Hrest y Hy).
        assert (y <> x) as Hne by (intros ->; contradiction).
        intros Hp. nia. }
      unfold fill_slot. cbn [ids dists].
      split.
      * rewrite overwrite_lookup_in;
          rewrite ?length_slot_ids; try lia.
        rewrite list_lookup_fmap. f_equal. f_equal. lia.
      * intros Hjd. rewrite overwrite_lookup_in by lia.
        f_equal. lia.
Qed.

End BatchFacts.

Section BatchClaims.
Import Search.

Variable cached_beam_search :
  list spec_float -> Z -> Z -> Z -> Z -> bool -> list Z * list spec_float.

Lemma length_fill_slots e knn order :
  forall w,
    length (ids (fill_slots e knn order w)) = length (ids w)
    /\ length (dists (fill_slots e knn order w)) = length (dists w).
Proof.
  induction order as [|x order IH]; intros w; [tauto|].
  change (fill_slots e knn (x :: order) w)
    with (fill_slots e knn order (fill_slot (e x) (x * knn) knn w)).
  destruct (IH (fill_slot (e x) (x * knn) knn w)) as [-> ->].
  apply length_fill_slot.
Qed.

Lemma in_range_seqZ n : Forall (fun q => 0 <= q < n) (seqZ 0 n).
Proof. apply Forall_forall. intros q Hq. apply elem_of_seqZ in Hq. lia. Qed.


(** X10.  [batch_search] on vectors of one length, with an engine that
    writes [knn] ids and [knn] distances per query: every write is inside
    the vectors; afterwards the slot of each query holds the ids found for
    it, cut down to 32 bits, and its distances; elements past the last slot
    are as they were. *)
Theorem batch_search_fills_every_slot
    (queries : list spec_float)
    (dim num_queries knn l_search beam_width num_threads : Z)
    (rt : Omp.runtime) (v : vectors) :
  0 <= knn * num_queries < 2 ^ 64 ->
  (forall q,
     0 <= q < num_queries ->
     Z.of_nat
       (length (fst (cached_beam_search queries (u64 (q * dim)) knn l_search
                       beam_width false))) = knn
     /\ Z.of_nat
          (length (snd (cached_beam_search queries (u64 (q * dim)) knn
                          l_search beam_width false))) = knn) ->
  0 <= knn ->
  length (ids v) = length (dists v) ->
  exists v',
    snd (batch_search cached_beam_search queries dim num_queries knn
           l_search beam_width num_threads rt v)
    = Ok v'
    /\ length (ids v') = length (dists v')
    /\ Z.of_nat (length (ids v'))
       = Z.max (Z.of_nat (length (ids v))) (knn * num_queries)
    /\ (forall q (j : nat),
          0 <= q < num_queries -> Z.of_nat j < knn ->
          ids v' !! (Z.to_nat (q * knn) + j)%nat
          = u32 <$> fst (cached_beam_search queries (u64 (q * dim)) knn
                           l_search beam_width false) !! j
          /\ dists v' !! (Z.to_nat (q * knn) + j)%nat
             = snd (cached_beam_search queries (u64 (q * dim)) knn l_search
                      beam_width false) !! j)
    /\ (forall p : nat,
          (p < length (ids v))%nat -> knn * num_queries <= Z.of_nat p ->
          ids v' !! p = ids v !! p /\ dists v' !! p = dists v !! p).
Proof.
  intros Hn He Hk Hlen.
  assert (forall q,
            0 <= q < num_queries ->
            Z.of_nat
              (length (fst (cached_beam_search queries (u64 (q * dim)) knn
                              l_search beam_width false))) <= knn
            /\ Z.of_nat
                 (length (snd (cached_beam_search queries (u64 (q * dim)) knn
                                 l_search beam_width false))) <= knn)
    as He'.
  { intros q Hq. destruct (He q Hq). lia. }
  destruct (grow_facts knn num_queries v Hn Hlen) as (Hgl & Hgmax & Hgold).
  unfold batch_search, batch_search_in_order. cbn [snd].
  rewrite (run_iterations_ok cached_beam_search queries dim num_queries knn
             l_search beam_width Hk Hn He')
    by (try apply in_range_seqZ; lia).
  eexists. split; [reflexivity|].
  match goal with
  | |- context [ fill_slots ?e knn ?o ?w ] =>
      destruct (length_fill_slots e knn o w) as [Li Ld]
  end.
  split; [lia|]. split; [lia|]. split.
  - intros q j Hq Hj.
    destruct (fill_slots_lookup_in cached_beam_search queries dim
                num_queries knn l_search beam_width Hk Hn He'
                (seqZ 0 num_queries) q j (in_range_seqZ _)
                ltac:(apply elem_of_seqZ; lia) Hj
                (grow knn num_queries v) ltac:(lia) ltac:(lia))
      as [Hids Hdists].
    cbv beta in Hids, Hdists. destruct (He q Hq) as [Hfi Hfd].
    rewrite overwrite_all in Hids by (rewrite length_replicate; lia).
    split; [exact Hids|]. apply Hdists. lia.
  - intros p Hp Hpast.
    destruct (fill_slots_lookup_out cached_beam_search queries dim
                num_queries knn l_search beam_width Hk Hn He'
                (seqZ 0 num_queries) p (in_range_seqZ _))
      with (v := grow knn num_queries v) as [-> ->].
    + apply Forall_forall. intros q Hq. apply elem_of_seqZ in Hq. nia.
    + apply Hgold. exact Hp.
Qed.

Lemma store_range_length {A} (w : list A) :
  forall l first l',
    store_range l first w = Ok l' -> length l' = length l.
Proof.
  induction w as [|x w IH]; intros l first l' Hrun; simpl in Hrun.
  - congruence.
  - unfold store in Hrun.
    destruct ((0 <=? first) && (first <? Z.of_nat (length l)));
      [|discriminate].
    simpl in Hrun. apply IH in Hrun. rewrite length_insert in Hrun.
    exact Hrun.
Qed.

Lemma copy_ids_length base u64_ids n :
  forall i ids ids',
    copy_ids n i base u64_ids ids = Ok ids' -> length ids' = length ids.
Proof.
  induction n as [|n IH]; intros i ids ids' Hrun; simpl in Hrun.
  - congruence.
  - destruct (index u64_ids i) as [x|]; [|discriminate].
    unfold store in Hrun.
    destruct ((0 <=? u64 (base + i))
              && (u64 (base + i) <? Z.of_nat (length ids)));
      [|discriminate].
    simpl in Hrun. apply IH in Hrun. rewrite length_insert in Hrun.
    exact Hrun.
Qed.

Lemma batch_iteration_length queries dim knn l_search beam_width q v v' :
  batch_iteration cached_beam_search queries dim knn l_search beam_width q v
  = Ok v' ->
  length (ids v') = length (ids v).
Proof.
  unfold batch_iteration.
  destruct (cached_beam_search queries (u64 (q * dim)) knn l_search
              beam_width false) as [found_ids found_dists].
  destruct (store_range (replicate (Z.to_nat knn) 0) 0 found_ids)
    as [u| |]; [|discriminate..].
  simpl. destruct (store_range (dists v) (u64 (q * knn)) found_dists)
    as [d'| |]; [|discriminate..].
  simpl. destruct (copy_ids (Z.to_nat knn) 0 (u64 (q * knn)) u (ids v))
    as [i'| |] eqn:Hcopy; [|discriminate..].
  simpl. intros [= <-]. simpl. eapply copy_ids_length. exact Hcopy.
Qed.

(** X11.  When passing a [QueryStats] makes no difference to what the
    engine finds, [batch_search] leaves in the two vectors what calling
    [search] for query 0, query 1, and so on leaves, and fails when these
    calls fail. *)
Theorem batch_search_is_iterated_search
    (queries : list spec_float)
    (dim num_queries knn l_search beam_width num_threads : Z)
    (rt : Omp.runtime) (v : vectors) :
  (forall offset,
     cached_beam_search queries offset knn l_search beam_width true
     = cached_beam_search queries offset knn l_search beam_width false) ->
  0 <= num_queries ->
  snd (batch_search cached_beam_search queries dim num_queries knn l_search
         beam_width num_threads rt v)
  = run_iterations
      (fun q =>
         search cached_beam_search queries q dim num_queries knn l_search
           beam_width)
      (seqZ 0 num_queries) v.
Proof.
  intros Hstats Hnq.
  assert (forall q w,
            search cached_beam_search queries q dim num_queries knn l_search
              beam_width w
            = batch_iteration cached_beam_search queries dim knn l_search
                beam_width q (grow knn num_queries w)) as Hsearch.
  { intros q w. unfold search, search_slot, batch_iteration.
    rewrite Hstats. reflexivity. }
  assert (forall w,
            u64 (knn * num_queries) <= Z.of_nat (length (ids w)) ->
            grow knn num_queries w = w) as Hgrown.
  { intros w Hw. unfold grow.
    destruct (Z.ltb_spec (Z.of_nat (length (ids w)))
                (u64 (knn * num_queries))); [lia|reflexivity]. }
  assert (forall order w,
            u64 (knn * num_queries) <= Z.of_nat (length (ids w)) ->
            run_iterations
              (batch_iteration cached_beam_search queries dim knn l_search
                 beam_width) order w
            = run_iterations
                (fun q =>
                   search cached_beam_search queries q dim num_queries knn
                     l_search beam_width) order w) as Hrest.
  { induction order as [|q order IH]; intros w Hw; [reflexivity|].
    cbn [run_iterations]. rewrite Hsearch, (Hgrown w Hw).
    destruct (batch_iteration cached_beam_search queries dim knn l_search
                beam_width q w) as [w'| |] eqn:Hq; [|reflexivity..].
    simpl. apply IH. apply batch_iteration_length in Hq. lia. }
  unfold batch_search, batch_search_in_order. cbn [snd].
  assert (u64 (knn * num_queries)
          <= Z.of_nat (length (ids (grow knn num_queries v)))) as Hg.
  { unfold grow.
    destruct (Z.ltb_spec (Z.of_nat (length (ids v)))
                (u64 (knn * num_queries))) as [Hlt|Hge]; [|exact Hge].
    simpl. unfold resize.
    rewrite length_app, length_take, length_replicate. lia. }
  rewrite (Hrest _ _ Hg).
  destruct (seqZ 0 num_queries) as [|q order] eqn:Hseq.
  - simpl. f_equal. apply Hgrown.
    assert (num_queries = 0) as ->.
    { pose proof (length_seqZ 0 num_queries) as Hl. rewrite Hseq in Hl.
      simpl in Hl. lia. }
    rewrite Z.mul_0_r. change (u64 0) with 0. lia.
  - cbn [run_iterations]. rewrite !Hsearch.
    rewrite (Hgrown _ Hg). reflexivity.
Qed.

End BatchClaims.

(** * The thread count across calls *)

Section ThreadCount.
Import Omp.




End ThreadCount.

(** * Loading a truth set *)

Section TruthsetFacts.
Import Search Truthset CalculateRecall RecallSpec.

Lemma copy_range_ok {A} (l : list A) n :
  forall first,
    0 <= first ->
    first + Z.of_nat n <= Z.of_nat (length l) ->
    copy_range (Some l) first n
    = Ok (take n (drop (Z.to_nat first) l)).
Proof.
  induction n as [|n IH]; intros first Hf Hn; [reflexivity|].
  cbn [copy_range].
  destruct (index_in_range l first) as [x Hx]; [lia|].
  rewrite Hx, IH by lia. simpl.
  apply index_Some in Hx as [_ Hx]. rewrite (drop_S _ _ _ Hx).
  replace (Z.to_nat (first + 1)) with (Datatypes.S (Z.to_nat first)) by lia.
  reflexivity.
Qed.

Lemma copy_range_within_budget {A} (p : option (list A)) n :
  forall first, copy_range p first n <> OutOfFuel.
Proof.
  induction n as [|n IH]; intros first; [discriminate|].
  cbn [copy_range]. destruct p as [l|]; [|discriminate].
  destruct (index l first); [|discriminate].
  specialize (IH (first + 1)).
  destruct (copy_range (Some l) (first + 1) n); simpl;
    [discriminate|discriminate|contradiction].
Qed.

Variable load_truthset_file :
  string -> option (list Z) * option (list spec_float) * Z * Z.

(** X14.  What [load_truthset] puts into [ids] and [distances] is what
    [calculate_recall] needs: when the loader hands over [num * dims] ids
    and as many distances, both vectors come out [num * dims] long, and with
    [num] queries, rows of width [dims] and a results vector of [num] rows,
    [calculate_recall] reads within bounds. *)
Theorem load_truthset_feeds_calculate_recall
    (path : string) (id_buf : list Z) (dist_buf : list spec_float)
    (num dims result_dims recall_at : Z) (res : list Z) :
  load_truthset_file path = (Some id_buf, Some dist_buf, num, dims) ->
  1 <= num -> is_u32 num -> is_u32 dims -> is_u32 result_dims ->
  num * dims <= Z.of_nat (length id_buf) ->
  num * dims <= Z.of_nat (length dist_buf) ->
  1 <= recall_at -> recall_at <= dims -> recall_at <= result_dims ->
  num * result_dims <= Z.of_nat (length res) ->
  exists ids distances value,
    load_truthset load_truthset_file path
    = Ok (ids, distances, [num; dims])
    /\ Z.of_nat (length ids) = num * dims
    /\ Z.of_nat (length distances) = num * dims
    /\ calculate_recall num dims result_dims recall_at
         (Heap ids (Some distances) res)
       = Ok (value, Heap ids (Some distances) res).
Proof.
  intros Hload Hnum Hn Hd Hrd Hids Hdists Hk1 Hkd Hkr Hres.
  assert (0 <= num * dims < 2 ^ 64) as Hsize.
  { unfold is_u32 in *. assert (2 ^ 32 * 2 ^ 32 = 2 ^ 64) by reflexivity.
    nia. }
  unfold load_truthset. rewrite Hload, (u64_small _ Hsize).
  rewrite !copy_range_ok by lia. simpl and_then.
  change (Z.to_nat 0) with 0%nat. rewrite !drop_0.
  do 3 eexists. split; [reflexivity|].
  assert (Z.of_nat (length (take (Z.to_nat (num * dims)) id_buf))
          = num * dims) as Li by (rewrite length_take; lia).
  assert (Z.of_nat (length (take (Z.to_nat (num * dims)) dist_buf))
          = num * dims) as Ld by (rewrite length_take; lia).
  split; [exact Li|]. split; [exact Ld|].
  apply calculate_recall_ok. constructor; try assumption; simpl; try lia.
  intros d [= <-]. lia.
Qed.

(** X15.  A truth set without distances cannot be loaded: when the loader
    leaves the distance pointer null and the truth set is not empty, the
    lambda reads through the null pointer. *)
Theorem load_truthset_without_distances
    (path : string) (id_ptr : option (list Z)) (num dims : Z) :
  load_truthset_file path = (id_ptr, None, num, dims) ->
  0 < u64 (num * dims) ->
  load_truthset load_truthset_file path = OutOfBounds.
Proof.
  intros Hload Hsize. unfold load_truthset. rewrite Hload.
  pose proof (copy_range_within_budget id_ptr
                (Z.to_nat (u64 (num * dims))) 0) as Hfuel.
  destruct (copy_range id_ptr 0 (Z.to_nat (u64 (num * dims))))
    as [ids| |]; [|reflexivity|contradiction].
  simpl. destruct (Z.to_nat (u64 (num * dims))) eqn:E; [lia|].
  reflexivity.
Qed.

End TruthsetFacts.

(** * Recall and the order of the results *)

Section ResultOrder.
Import CalculateRecall RecallSpec.

Variables (ids : list Z) (dists : option (list spec_float)).
Variables (res res' : list Z).
Variables (num_queries ground_truth_dims result_dims recall_at : Z).
Hypothesis Hvalid :
  valid_input (Heap ids dists res) num_queries ground_truth_dims result_dims
    recall_at.
Hypothesis Hvalid' :
  valid_input (Heap ids dists res') num_queries ground_truth_dims result_dims
    recall_at.

(** The ground-truth set of a query does not depend on the results. *)
Lemma ground_truth_set_same i :
  0 <= i < num_queries ->
  value (ground_truth_set ground_truth_dims recall_at i (Heap ids dists res))
  = value (ground_truth_set ground_truth_dims recall_at i
             (Heap ids dists res')).
Proof.
  intros Hi.
  destruct (tie_break_in_row _ _ _ _ _ Hvalid i Hi) as (tb & Run & Htb).
  destruct (tie_break_in_row _ _ _ _ _ Hvalid' i Hi) as (tb' & Run' & Htb').
  rewrite (ground_truth_set_ok _ _ _ _ _ Hvalid i tb Hi Run Htb).
  rewrite (ground_truth_set_ok _ _ _ _ _ Hvalid' i tb' Hi Run' Htb').
  simpl. assert (tb = tb') as ->; [|reflexivity].
  destruct dists as [d|] eqn:Hd.
  - destruct (tie_break_present _ _ _ _ _ Hvalid d i eq_refl Hi)
      as (t & Rt & Hb & Hties & Hstop).
    destruct (tie_break_present _ _ _ _ _ Hvalid' d i eq_refl Hi)
      as (t' & Rt' & Hb' & Hties' & Hstop').
    rewrite Run in Rt. rewrite Run' in Rt'.
    injection Rt as <-. injection Rt' as <-.
    destruct (Z.lt_trichotomy tb tb') as [Hlt|[E|Hgt]]; [|exact E|].
    + rewrite Hties' in Hstop by lia. specialize (Hstop ltac:(lia)).
      discriminate.
    + rewrite Hties in Hstop' by lia. specialize (Hstop' ltac:(lia)).
      discriminate.
  - rewrite (tie_break_absent (Heap ids None res) _ _ i eq_refl) in Run.
    rewrite (tie_break_absent (Heap ids None res') _ _ i eq_refl) in Run'.
    congruence.
Qed.

(** X16.  Recall looks at the first [recall_at] results of a query as a
    set: reordering them, or changing the results past them, leaves the
    value as it is. *)
Theorem recall_ignores_result_order :
  (forall i,
     0 <= i < num_queries ->
     take (Z.to_nat recall_at) (drop (Z.to_nat (result_dims * i)) res')
     ≡ₚ take (Z.to_nat recall_at) (drop (Z.to_nat (result_dims * i)) res)) ->
  value (calculate_recall num_queries ground_truth_dims result_dims recall_at
           (Heap ids dists res'))
  = value (calculate_recall num_queries ground_truth_dims result_dims
             recall_at (Heap ids dists res)).
Proof.
  intros Hperm.
  rewrite (calculate_recall_ok _ _ _ _ _ Hvalid).
  rewrite (calculate_recall_ok _ _ _ _ _ Hvalid').
  simpl value. f_equal. f_equal.
  unfold RecallSpec.total_matched. f_equal.
  apply map_ext_in. intros i Hin.
  apply list_elem_of_In, elem_of_seqZ in Hin.
  unfold matched. rewrite (ground_truth_set_same i) by lia.
  destruct (value (ground_truth_set ground_truth_dims recall_at i
                     (Heap ids dists res'))) as [gt| |]; try reflexivity.
  f_equal. f_equal. f_equal. unfold res_set. simpl.
  apply set_eq. intros x. rewrite !elem_of_list_to_set.
  rewrite (Hperm i) by lia. reflexivity.
Qed.

End ResultOrder.

(** * The further properties on the sample inputs *)

Section MoreWitnesses.
Import CalculateRecall RecallSpec Search Samples MoreSamples.

Lemma valid_nan_rank : valid_input nan_rank 1 3 2 2.
Proof.
  constructor; unfold is_u32; simpl; try lia.
  intros d [= <-]. simpl. lia.
Defined.

Lemma valid_in_order : valid_input in_order 1 3 2 2.
Proof.
  constructor; unfold is_u32; simpl; try lia.
  intros d [= <-]. simpl. lia.
Defined.

Lemma valid_swapped : valid_input swapped 1 3 2 2.
Proof.
  constructor; unfold is_u32; simpl; try lia.
  intros d [= <-]. simpl. lia.
Defined.


Lemma zero_recall_at_nan_witness :
  calculate_recall 2 2 1 0 no_dists = Ok (DNaN, no_dists).
Proof.
  apply (zero_recall_at_nan no_dists 2 2 1); [reflexivity|lia].
Defined.

Lemma wrapped_recall_at_out_of_bounds_witness :
  calculate_recall 1 4 1 0 tied_pair = OutOfBounds.
Proof.
  apply (wrapped_recall_at_out_of_bounds tied_pair [f1; f1; f2; f3] 1 4 1).
  - reflexivity.
  - unfold is_u32. lia.
  - lia.
  - simpl. lia.
Defined.

Lemma nan_pivot_shrinks_ground_truth_witness :
  value (tie_break 3 2 0 nan_rank) = Ok (2 - 1)
  /\ value (ground_truth_set 3 2 0 nan_rank) = Ok (list_to_set [10]).
Proof.
  apply (nan_pivot_shrinks_ground_truth nan_rank 1 3 2 2 valid_nan_rank
           [f1; S754_nan; f2] 0); [reflexivity|lia|reflexivity].
Defined.



Lemma recall_ignores_result_order_witness :
  value (calculate_recall 1 3 2 2 swapped)
  = value (calculate_recall 1 3 2 2 in_order).
Proof.
  apply (recall_ignores_result_order [10; 11; 12] (Some [f1; f2; f3])
           [10; 11] [11; 10] 1 3 2 2 valid_in_order valid_swapped).
  intros i Hi. assert (i = 0) as -> by lia. simpl. apply perm_swap.
Defined.

Lemma search_fills_slot_witness :
  exists v',
    search toy_engine two_queries 1 1 2 2 10 4 (Vectors [] []) = Ok v'
    /\ length (ids v') = length (dists v')
    /\ Z.of_nat (length (ids v')) = Z.max (Z.of_nat 0) (2 * 2)
    /\ (forall j : nat,
          Z.of_nat j < 2 ->
          ids v' !! (Z.to_nat (1 * 2) + j)%nat
          = u32 <$> [2 ^ 32 + 1 + 0; 2 ^ 32 + 1 + 1] !! j
          /\ dists v' !! (Z.to_nat (1 * 2) + j)%nat = [f1; f1] !! j)
    /\ (forall p : nat,
          (p < 0)%nat ->
          ~ (1 * 2 <= Z.of_nat p < 1 * 2 + 2) ->
          ids v' !! p = [] !! p /\ dists v' !! p = [] !! p).
Proof.
  apply (search_fills_slot toy_engine two_queries 1 1 2 2 10 4
           (Vectors [] []) [2 ^ 32 + 1 + 0; 2 ^ 32 + 1 + 1] [f1; f1]);
    try reflexivity; lia.
Defined.

Lemma search_short_dists_out_of_bounds_witness :
  search toy_engine two_queries 1 1 2 2 10 4 (Vectors [0; 0; 0; 0] [f1; f1])
  = OutOfBounds.
Proof.
  apply (search_short_dists_out_of_bounds toy_engine two_queries 1 1 2 2 10
           4 (Vectors [0; 0; 0; 0] [f1; f1])
           [2 ^ 32 + 1 + 0; 2 ^ 32 + 1 + 1] [f1; f1]);
    try reflexivity; try discriminate; simpl; lia.
Defined.

Lemma toy_engine_writes_knn q :
  0 <= q < 2 ->
  Z.of_nat (length (fst (toy_engine two_queries (u64 (q * 1)) 2 10 4 false)))
  = 2
  /\ Z.of_nat
       (length (snd (toy_engine two_queries (u64 (q * 1)) 2 10 4 false)))
     = 2.
Proof. intros _. split; reflexivity. Defined.


Lemma batch_search_fills_every_slot_witness :
  exists v',
    snd (batch_search toy_engine two_queries 1 2 2 10 4 8 (Omp.Runtime 1)
           (Vectors [] []))
    = Ok v'
    /\ length (ids v') = length (dists v')
    /\ Z.of_nat (length (ids v')) = Z.max (Z.of_nat 0) (2 * 2)
    /\ (forall q (j : nat),
          0 <= q < 2 -> Z.of_nat j < 2 ->
          ids v' !! (Z.to_nat (q * 2) + j)%nat
          = u32 <$> fst (toy_engine two_queries (u64 (q * 1)) 2 10 4 false)
                    !! j
          /\ dists v' !! (Z.to_nat (q * 2) + j)%nat
             = snd (toy_engine two_queries (u64 (q * 1)) 2 10 4 false) !! j)
    /\ (forall p : nat,
          (p < 0)%nat -> 2 * 2 <= Z.of_nat p ->
          ids v' !! p = [] !! p /\ dists v' !! p = [] !! p).
Proof.
  apply (batch_search_fills_every_slot toy_engine two_queries 1 2 2 10 4 8
           (Omp.Runtime 1) (Vectors [] []));
    [lia|exact toy_engine_writes_knn|lia|reflexivity].
Defined.

Lemma batch_search_is_iterated_search_witness :
  snd (batch_search toy_engine two_queries 1 2 2 10 4 8 (Omp.Runtime 1)
         (Vectors [] []))
  = run_iterations (fun q => search toy_engine two_queries q 1 2 2 10 4)
      (seqZ 0 2) (Vectors [] []).
Proof.
  apply (batch_search_is_iterated_search toy_engine two_queries 1 2 2 10 4 8
           (Omp.Runtime 1) (Vectors [] [])); [reflexivity|lia].
Defined.



Lemma load_truthset_feeds_calculate_recall_witness :
  exists ids distances value,
    Truthset.load_truthset toy_loader "truth"
    = Ok (ids, distances, [1; 4])
    /\ Z.of_nat (length ids) = 1 * 4
    /\ Z.of_nat (length distances) = 1 * 4
    /\ calculate_recall 1 4 1 1 (Heap ids (Some distances) [11])
       = Ok (value, Heap ids (Some distances) [11]).
Proof.
  apply (load_truthset_feeds_calculate_recall toy_loader "truth"
           [10; 11; 12; 13] [f1; f1; f2; f3] 1 4 1 1 [11]);
    try reflexivity; unfold is_u32; simpl; lia.
Defined.

Lemma load_truthset_without_distances_witness :
  Truthset.load_truthset toy_loader_ids_only "truth" = OutOfBounds.
Proof.
  apply (load_truthset_without_distances toy_loader_ids_only "truth"
           (Some [10; 11; 12; 13]) 1 4); [reflexivity|].
  vm_compute. reflexivity.
Defined.

End MoreWitnesses.

(** * The numpy searches against the vector searches *)

Section NumpySearchFacts.
Import Search SearchNumpy.

Lemma length_fresh {A} (garbage : nat -> A) n :
  length (fresh garbage n) = Z.to_nat n.
Proof. unfold fresh. rewrite length_map, length_seq. reflexivity. Qed.

Lemma map_overwrite {A B} (f : A -> B) (l : list A) first (w : list A) :
  map f (overwrite l first w) = overwrite (map f l) first (map f w).
Proof.
  apply list_eq. intros p. rewrite list_lookup_fmap.
  destruct (decide (p < length l)%nat) as [Hp|Hp].
  - destruct (decide (first <= Z.of_nat p
                      < first + Z.of_nat (length w))) as [Hin|Hout].
    + rewrite !overwrite_lookup_in; rewrite ?length_map; try lia.
      rewrite list_lookup_fmap. reflexivity.
    + rewrite !overwrite_lookup_out; rewrite ?length_map; try lia.
      rewrite list_lookup_fmap. reflexivity.
  - rewrite !lookup_ge_None_2;
      rewrite ?length_overwrite, ?length_map; try lia.
    reflexivity.
Qed.

Lemma to_ssize_small z : 0 <= z < 2 ^ 63 -> to_ssize z = z.
Proof.
  intros Hz. unfold to_ssize. rewrite Z.mod_small by lia. lia.
Qed.

Variable cached_beam_search :
  list spec_float -> Z -> Z -> Z -> Z -> bool -> list Z * list spec_float.

(** X17.  [search_numpy_input] returns what [search] stores for a single
    query: with an engine that writes [knn] ids and [knn] distances, it
    returns the ids found, cut down to 32 bits, and the distances found,
    nothing of the fresh arrays' contents being left; [search] on empty
    vectors, with [query_idx = 0] and [num_queries = 1], leaves the same. *)
Theorem search_numpy_input_agrees_with_search
    (shape : list Z) (query : list spec_float)
    (dim knn l_search beam_width : Z)
    (garbage_ids : nat -> Z) (garbage_dists : nat -> spec_float)
    (found_ids : list Z) (found_dists : list spec_float) :
  cached_beam_search query 0 knn l_search beam_width true
  = (found_ids, found_dists) ->
  Z.of_nat (length found_ids) = knn ->
  Z.of_nat (length found_dists) = knn ->
  knn < 2 ^ 64 ->
  search_numpy_input cached_beam_search (FArray shape query) dim knn
    l_search beam_width garbage_ids garbage_dists
  = Ok (map u32 found_ids, found_dists)
  /\ search cached_beam_search query 0 dim 1 knn l_search beam_width
       (Vectors [] [])
     = Ok (Vectors (map u32 found_ids) found_dists).
Proof.
  intros He Hfi Hfd Hk. split.
  - unfold search_numpy_input. cbn [fa_data]. rewrite He.
    rewrite store_range_ok by (rewrite ?length_replicate; lia).
    simpl and_then.
    rewrite store_range_ok by (rewrite ?length_fresh; lia).
    simpl and_then.
    rewrite overwrite_all by (rewrite length_replicate; lia).
    rewrite copy_ids_ok by (rewrite ?length_fresh; lia).
    simpl and_then. change (Z.to_nat 0) with 0%nat. rewrite drop_0.
    rewrite take_ge by lia.
    rewrite !overwrite_all;
      rewrite ?length_map, ?length_fresh; try lia.
    reflexivity.
  - destruct (grow_facts knn 1 (Vectors [] []) ltac:(lia) eq_refl)
      as (Hgl & Hgmax & _).
    simpl in Hgmax.
    unfold search, search_slot. rewrite !Z.mul_0_l. change (u64 0) with 0.
    rewrite He.
    pose proof (slot_filled (found_ids, found_dists) 0 knn
                  (grow knn 1 (Vectors [] []))) as Hfill.
    cbn [fst snd] in Hfill. rewrite Hfill by lia. clear Hfill.
    unfold fill_slot. cbn [fst snd]. f_equal.
    rewrite (overwrite_all (replicate _ _))
      by (rewrite length_replicate; lia).
    rewrite !overwrite_all; rewrite ?length_map; try lia.
    reflexivity.
Qed.

End NumpySearchFacts.

Section NumpyBatchFacts.
Import Search SearchNumpy.

Variable cached_beam_search :
  list spec_float -> Z -> Z -> Z -> Z -> bool -> list Z * list spec_float.
Variables (data : list spec_float).
Variables (rows dim num_queries knn l_search beam_width : Z).

Hypothesis Hknn : 1 <= knn.
Hypothesis Hrows : 0 <= num_queries <= rows.
Hypothesis Hdim : 0 <= dim.
Hypothesis Hsize : knn * num_queries < 2 ^ 63.
Hypothesis Hdata : rows * dim < 2 ^ 63.
Hypothesis Hengine :
  forall q,
    0 <= q < num_queries ->
    Z.of_nat
      (length (fst (cached_beam_search data (u64 (q * dim)) knn l_search
                      beam_width false))) = knn
    /\ Z.of_nat
         (length (snd (cached_beam_search data (u64 (q * dim)) knn l_search
                         beam_width false))) = knn.

Lemma engine_bounded q :
  0 <= q < num_queries ->
  Z.of_nat
    (length (fst (cached_beam_search data (u64 (q * dim)) knn l_search
                    beam_width false))) <= knn
  /\ Z.of_nat
       (length (snd (cached_beam_search data (u64 (q * dim)) knn l_search
                       beam_width false))) <= knn.
Proof. intros Hq. destruct (Hengine q Hq). lia. Qed.

(** One iteration on a two-dimensional array of rows of [dim] floats. *)
Lemma numpy_iteration_ok q st :
  0 <= q < num_queries ->
  Z.of_nat (length (ids st)) = knn * num_queries ->
  Z.of_nat (length (dists st)) = knn * num_queries ->
  numpy_iteration cached_beam_search (FArray [rows; dim] data) knn l_search
    beam_width q st
  = Ok (Vectors
          (overwrite (ids st) (q * knn)
             (fst (cached_beam_search data (u64 (q * dim)) knn l_search
                     beam_width false)))
          (overwrite (dists st) (q * knn)
             (snd (cached_beam_search data (u64 (q * dim)) knn l_search
                     beam_width false)))).
Proof.
  intros Hq Hi Hd. destruct (Hengine q Hq) as [Hfi Hfd].
  assert (0 <= q * knn /\ q * knn + knn <= knn * num_queries)
    as [Hs0 Hs1] by nia.
  assert (0 <= q * dim < 2 ^ 63) as Hqd by nia.
  unfold numpy_iteration, data_at. cbn [fa_shape fa_data foldr].
  rewrite (u64_small (q * knn)) by lia.
  rewrite !to_ssize_small by lia.
  destruct (Z.ltb_spec q rows); [|lia].
  destruct (Z.ltb_spec (q * knn) (Z.of_nat (length (dists st)))); [|lia].
  replace (q * (dim * 1)) with (u64 (q * dim))
    by (rewrite u64_small; lia).
  destruct (cached_beam_search data (u64 (q * dim)) knn l_search beam_width
              false) as [found_ids found_dists].
  cbn [fst snd] in *.
  rewrite store_range_ok by lia. simpl and_then.
  rewrite Z.mul_1_r. rewrite store_range_ok by lia. reflexivity.
Qed.

(** The two loops, run over the same queries, keep the id vector of one
    the 32-bit cut of the id buffer of the other, and agree on the
    distances of every query they have been through. *)
Lemma numpy_loop_simulation order :
  forall (done : list Z) (st v : vectors),
    Forall (fun q => 0 <= q < num_queries) order ->
    Z.of_nat (length (ids st)) = knn * num_queries ->
    Z.of_nat (length (dists st)) = knn * num_queries ->
    Z.of_nat (length (dists v)) = knn * num_queries ->
    ids v = map u32 (ids st) ->
    (forall (p : nat) q,
       q ∈ done -> q * knn <= Z.of_nat p < q * knn + knn ->
       dists st !! p = dists v !! p) ->
    exists st' v',
      run_iterations
        (numpy_iteration cached_beam_search (FArray [rows; dim] data) knn
           l_search beam_width) order st
      = Ok st'
      /\ run_iterations
           (batch_iteration cached_beam_search data dim knn l_search
              beam_width) order v
         = Ok v'
      /\ Z.of_nat (length (ids st')) = knn * num_queries
      /\ Z.of_nat (length (dists st')) = knn * num_queries
      /\ Z.of_nat (length (dists v')) = knn * num_queries
      /\ ids v' = map u32 (ids st')
      /\ (forall (p : nat) q,
            q ∈ done \/ q ∈ order ->
            q * knn <= Z.of_nat p < q * knn + knn ->
            dists st' !! p = dists v' !! p).
Proof.
  induction order as [|q order IH];
    intros done st v Hall Hi Hd Hdv Hids Hdists.
  - exists st, v. repeat split; try assumption; try reflexivity.
    intros p q [Hq|Hq] Hp; [eauto|]. apply elem_of_nil in Hq. contradiction.
  - apply Forall_cons in Hall as [Hq Hall].
    destruct (Hengine q Hq) as [Hfi Hfd].
    assert (0 <= q * knn /\ q * knn + knn <= knn * num_queries)
      as [Hs0 Hs1] by nia.
    assert (Z.of_nat (length (ids v)) = knn * num_queries) as Hiv.
    { rewrite Hids, length_map. exact Hi. }
    cbn [run_iterations].
    rewrite (numpy_iteration_ok q st Hq Hi Hd). simpl and_then.
    rewrite (batch_iteration_ok cached_beam_search data dim num_queries knn
               l_search beam_width ltac:(lia) ltac:(nia) engine_bounded q v
               Hq ltac:(lia) ltac:(lia)).
    simpl and_then.
    set (e := cached_beam_search data (u64 (q * dim)) knn l_search
                beam_width false) in *.
    destruct (IH (q :: done)
                (Vectors (overwrite (ids st) (q * knn) (fst e))
                   (overwrite (dists st) (q * knn) (snd e)))
                (fill_slot e (q * knn) knn v) Hall)
      as (st' & v' & Rn & Rv & Li & Ld & Ldv & Hids' & Hdists').
    + cbn [ids]. rewrite length_overwrite. exact Hi.
    + cbn [dists]. rewrite length_overwrite. exact Hd.
    + unfold fill_slot. cbn [dists]. rewrite length_overwrite. exact Hdv.
    + unfold fill_slot. cbn [ids].
      rewrite overwrite_all by (rewrite length_replicate; lia).
      rewrite Hids, map_overwrite. reflexivity.
    + intros p q' Hq' Hp. unfold fill_slot. cbn [dists].
      destruct (decide (q * knn <= Z.of_nat p
                        < q * knn + Z.of_nat (length (snd e))))
        as [Hin|Hout].
      * rewrite !overwrite_lookup_in by lia. reflexivity.
      * rewrite !overwrite_lookup_out by exact Hout.
        apply elem_of_cons in Hq' as [->|Hq']; [lia|].
        apply (Hdists p q' Hq' Hp).
    + exists st', v'. repeat split; try assumption.
      intros p q' Hq' Hp. apply (Hdists' p q'); [|exact Hp].
      rewrite !elem_of_cons in *. tauto.
Qed.

End NumpyBatchFacts.

Section NumpyBatchClaims.
Import Search SearchNumpy.

Variable cached_beam_search :
  list spec_float -> Z -> Z -> Z -> Z -> bool -> list Z * list spec_float.

Lemma grow_empty knn num_queries :
  0 <= knn * num_queries < 2 ^ 64 ->
  grow knn num_queries (Vectors [] [])
  = Vectors (replicate (Z.to_nat (knn * num_queries)) 0)
            (replicate (Z.to_nat (knn * num_queries)) (S754_zero false)).
Proof.
  intros Hn. unfold grow. rewrite u64_small by exact Hn. cbn [ids length].
  destruct (Z.ltb_spec (Z.of_nat 0) (knn * num_queries)) as [Hlt|Hge].
  - unfold resize. cbn [dists length]. rewrite !take_nil, !Nat.sub_0_r.
    reflexivity.
  - replace (knn * num_queries) with 0 by lia. reflexivity.
Qed.

(** X18.  On a two-dimensional array of rows of [dim] floats,
    [batch_search_numpy_input] returns the ids and distances that
    [batch_search] leaves in empty vectors for the same data laid out flat:
    the engine is asked about the same queries and every cell of the fresh
    arrays is written over. *)
Theorem batch_search_numpy_input_agrees_with_batch_search
    (data : list spec_float)
    (rows dim num_queries knn l_search beam_width : Z)
    (num_threads num_threads' : Z) (rt rt' : Omp.runtime)
    (garbage_ids : nat -> Z) (garbage_dists : nat -> spec_float) :
  1 <= knn ->
  0 <= num_queries <= rows ->
  0 <= dim ->
  knn * num_queries < 2 ^ 63 ->
  rows * dim < 2 ^ 63 ->
  (forall q,
     0 <= q < num_queries ->
     Z.of_nat
       (length (fst (cached_beam_search data (u64 (q * dim)) knn l_search
                       beam_width false))) = knn
     /\ Z.of_nat
          (length (snd (cached_beam_search data (u64 (q * dim)) knn l_search
                          beam_width false))) = knn) ->
  exists ids' dists',
    snd (batch_search_numpy_input cached_beam_search
           (FArray [rows; dim] data) dim num_queries knn l_search beam_width
           num_threads rt garbage_ids garbage_dists)
    = Ok (ids', dists')
    /\ snd (batch_search cached_beam_search data dim num_queries knn
              l_search beam_width num_threads' rt' (Vectors [] []))
       = Ok (Vectors ids' dists').
Proof.
  intros Hk Hrows Hdim Hsize Hdata He.
  assert (0 <= knn * num_queries) as Hn0 by nia.
  unfold batch_search_numpy_input, batch_search_numpy_input_in_order,
    batch_search, batch_search_in_order. cbn [snd].
  rewrite grow_empty by lia. rewrite u64_small by lia.
  destruct (numpy_loop_simulation cached_beam_search data rows dim
              num_queries knn l_search beam_width Hk Hrows Hdim Hsize Hdata
              He (seqZ 0 num_queries) []
              (Vectors (replicate (Z.to_nat (knn * num_queries)) 0)
                 (fresh garbage_dists (knn * num_queries)))
              (Vectors (replicate (Z.to_nat (knn * num_queries)) 0)
                 (replicate (Z.to_nat (knn * num_queries))
                    (S754_zero false))))
    as (st' & v' & Rn & Rv & Li & Ld & Ldv & Hids & Hdists).
  - apply in_range_seqZ.
  - cbn [ids]. rewrite length_replicate. lia.
  - cbn [dists]. rewrite length_fresh. lia.
  - cbn [dists]. rewrite length_replicate. lia.
  - cbn [ids]. apply list_eq. intros p. rewrite list_lookup_fmap.
    destruct (decide (p < Z.to_nat (knn * num_queries))%nat).
    + rewrite !lookup_replicate_2 by lia. reflexivity.
    + rewrite !lookup_ge_None_2 by (rewrite length_replicate; lia).
      reflexivity.
  - intros p q Hq. apply elem_of_nil in Hq. contradiction.
  - rewrite Rn, Rv. simpl and_then.
    rewrite copy_ids_ok by (rewrite ?length_fresh; lia).
    simpl and_then. change (Z.to_nat 0) with 0%nat. rewrite drop_0.
    rewrite take_ge by lia.
    rewrite overwrite_all by (rewrite length_map, length_fresh; lia).
    do 2 eexists. split; [reflexivity|]. f_equal.
    destruct v' as [vi vd]. cbn [ids dists] in *. f_equal; [exact Hids|].
    symmetry. apply list_eq. intros p.
    destruct (decide (Z.of_nat p < knn * num_queries)) as [Hp|Hp].
    + apply (Hdists p (Z.of_nat p / knn)).
      * right. apply elem_of_seqZ.
        pose proof (Z.div_mod (Z.of_nat p) knn ltac:(lia)) as Hdm.
        pose proof (Z.mod_pos_bound (Z.of_nat p) knn ltac:(lia)) as Hm.
        split; [apply Z.div_pos; lia|]. nia.
      * pose proof (Z.div_mod (Z.of_nat p) knn ltac:(lia)) as Hdm.
        pose proof (Z.mod_pos_bound (Z.of_nat p) knn ltac:(lia)) as Hm.
        nia.
    + rewrite !lookup_ge_None_2 by lia. reflexivity.
Qed.

End NumpyBatchClaims.

Section NumpySearchWitnesses.
Import Search SearchNumpy Samples MoreSamples.

Lemma search_numpy_input_agrees_with_search_witness :
  search_numpy_input toy_engine (FArray [1] [f1]) 1 2 10 4
    (fun _ => 7) (fun _ => f3)
  = Ok (map u32 [2 ^ 32 + 0 + 0; 2 ^ 32 + 0 + 1], [f1; f1])
  /\ search toy_engine [f1] 0 1 1 2 10 4 (Vectors [] [])
     = Ok (Vectors (map u32 [2 ^ 32 + 0 + 0; 2 ^ 32 + 0 + 1]) [f1; f1]).
Proof.
  apply (search_numpy_input_agrees_with_search toy_engine [1] [f1] 1 2 10 4
           (fun _ => 7) (fun _ => f3)
           [2 ^ 32 + 0 + 0; 2 ^ 32 + 0 + 1] [f1; f1]);
    try reflexivity; lia.
Defined.

Lemma batch_search_numpy_input_agrees_with_batch_search_witness :
  exists ids' dists',
    snd (batch_search_numpy_input toy_engine (FArray [2; 1] two_queries) 1 2
           2 10 4 8 (Omp.Runtime 1) (fun _ => 7) (fun _ => f3))
    = Ok (ids', dists')
    /\ snd (batch_search toy_engine two_queries 1 2 2 10 4 8 (Omp.Runtime 1)
              (Vectors [] []))
       = Ok (Vectors ids' dists').
Proof.
  apply (batch_search_numpy_input_agrees_with_batch_search toy_engine
           two_queries 2 1 2 2 10 4 8 8 (Omp.Runtime 1) (Omp.Runtime 1)
           (fun _ => 7) (fun _ => f3));
    try lia.
  intros q _. split; reflexivity.
Defined.

End NumpySearchWitnesses.
